(** * common-corpus, Lambda variant: the corpus access and caching layer

  A shallow embedding of [libs/common-corpus/lambda-index.js]: the
  configuration, the directory walker, the text loader, the bounded text
  cache, the document list and the name filter, followed by the properties
  of the specification that concern them.

  Conventions.
  - Paths, document names and filter patterns are [string]s.
  - File contents are sequences of UTF-16 code units ([jsstring]), because
    the loader compares a code unit with 0xFEFF, a value no byte holds.
  - A JavaScript [Map] is an association list in insertion order.
  - Code that may throw returns a [completion]; code that also reads or
    writes [textCache] lives in the monad [M].
  - [console.warn] and [console.error] only write to the log and are left
    out.
  - [lib/debreak], [lib/textutil] and the built-in regular expression
    engine are not part of the file; they are parameters. *)

From Stdlib Require Import String Ascii List ZArith Bool Lia.
From Stdlib.Strings Require Import Byte.
Import ListNotations.

Local Open Scope string_scope.
Local Open Scope list_scope.
Local Open Scope Z_scope.

(** ** JavaScript strings *)

Module JsString.

Definition slash : ascii := "047"%char.
Definition backslash : ascii := "092"%char.

(** [s.startsWith(p)] *)
Definition startsWith (s p : string) : bool := String.prefix p s.

(** [s.slice(n)] for [0 <= n]. *)
Fixpoint drop (n : nat) (s : string) : string :=
  match n, s with
  | O, _ => s
  | S _, EmptyString => EmptyString
  | S n', String _ s' => drop n' s'
  end.

(** [s.indexOf(pat)], counted from [i]: the first position at which [pat]
    occurs, or -1. *)
Fixpoint indexOf_from (i : Z) (pat s : string) : Z :=
  if startsWith s pat then i
  else match s with
       | EmptyString => -1
       | String _ s' => indexOf_from (i + 1) pat s'
       end.

Definition indexOf (s pat : string) : Z := indexOf_from 0 pat s.

(** [s.replace(pat, '')] with a string pattern: the first occurrence of
    [pat] is removed. *)
Fixpoint remove_first (pat s : string) : string :=
  if startsWith s pat then drop (String.length pat) s
  else match s with
       | EmptyString => EmptyString
       | String c s' => String c (remove_first pat s')
       end.

(** Does [s] end with [suf]?  ([/suf$/] for a literal [suf].) *)
Fixpoint endsWith (s suf : string) : bool :=
  if String.eqb s suf then true
  else match s with
       | EmptyString => false
       | String _ s' => endsWith s' suf
       end.

(** [s] without its last [n] characters. *)
Definition chop (n : nat) (s : string) : string :=
  String.substring 0 (String.length s - n) s.

(** The last character of [s]: [s[s.length-1]], [None] for [undefined]. *)
Fixpoint last (s : string) : option ascii :=
  match s with
  | EmptyString => None
  | String c EmptyString => Some c
  | String _ s' => last s'
  end.

Definition contains (s pat : string) : bool := (-1 <? indexOf s pat).

End JsString.

(** ** [path.basename] (POSIX)

  Node scans the path from its end: trailing slashes are skipped, then the
  characters up to the previous slash are the result. *)

Module Path.

Definition is_slash (c : ascii) : bool := Ascii.eqb c JsString.slash.

Fixpoint skip_slashes (r : list ascii) : list ascii :=
  match r with
  | c :: r' => if is_slash c then skip_slashes r' else r
  | [] => []
  end.

Fixpoint until_slash (r : list ascii) : list ascii :=
  match r with
  | c :: r' => if is_slash c then [] else c :: until_slash r'
  | [] => []
  end.

Definition basename (p : string) : string :=
  string_of_list_ascii
    (rev (until_slash (skip_slashes (rev (list_ascii_of_string p))))).

End Path.

(** ** JavaScript [Map] with string keys: insertion-ordered *)

Module JsMap.
Section Map.
Context {V : Type}.

Definition t := list (string * V).

Definition empty : t := [].

Fixpoint get (k : string) (m : t) : option V :=
  match m with
  | [] => None
  | (k', v) :: m' => if String.eqb k' k then Some v else get k m'
  end.

Definition has (k : string) (m : t) : bool :=
  match get k m with Some _ => true | None => false end.

(** [m.set(k, v)]: a present key keeps its position, a new key goes last. *)
Fixpoint set (k : string) (v : V) (m : t) : t :=
  match m with
  | [] => [(k, v)]
  | (k', v') :: m' =>
      if String.eqb k' k then (k, v) :: m' else (k', v') :: set k v m'
  end.

Fixpoint delete (k : string) (m : t) : t :=
  match m with
  | [] => []
  | (k', v') :: m' =>
      if String.eqb k' k then m' else (k', v') :: delete k m'
  end.

Definition size (m : t) : Z := Z.of_nat (List.length m).

Definition keys (m : t) : list string := List.map fst m.

(** [m.keys().next().value]: the oldest key, [None] for [undefined]. *)
Definition first_key (m : t) : option string :=
  match keys m with
  | [] => None
  | k :: _ => Some k
  end.

(** [m.delete(k)] where [k] may be [undefined]; no key is [undefined]. *)
Definition delete_opt (k : option string) (m : t) : t :=
  match k with
  | Some k => delete k m
  | None => m
  end.

End Map.
Arguments t : clear implicits.
End JsMap.


(** ** Values, exceptions and the cache monad *)

(** A JavaScript string as its UTF-16 code units. *)
Definition jsstring := list Z.

Inductive exn :=
| HostError                      (* thrown by fs, require or a library *)
| Error (message : string)       (* [new Error(message)] *)
| TypeError (message : string)
| SyntaxError (message : string).

Inductive completion (A : Type) :=
| Normal (a : A)
| Throw (e : exn).
Arguments Normal {A} a.
Arguments Throw {A} e.

(** [try { body } catch (error) { handler }] without state. *)
Definition try_catch {A} (body : completion A) (handler : exn -> completion A)
  : completion A :=
  match body with
  | Normal a => Normal a
  | Throw e => handler e
  end.

(** A call that throws when the host reports a failure. *)
Definition or_throw {A} (r : option A) : completion A :=
  match r with
  | Some a => Normal a
  | None => Throw HostError
  end.

(** [textCache], the only mutable state of an instance. *)
Definition cache := JsMap.t jsstring.

Definition M (A : Type) := cache -> completion A * cache.

Definition ret {A} (a : A) : M A := fun c => (Normal a, c).

Definition bind {A B} (m : M A) (k : A -> M B) : M B :=
  fun c => match m c with
           | (Normal a, c') => k a c'
           | (Throw e, c') => (Throw e, c')
           end.

Definition lift {A} (r : completion A) : M A := fun c => (r, c).

Definition gets {A} (f : cache -> A) : M A := fun c => (Normal (f c), c).

Definition modify (f : cache -> cache) : M unit := fun c => (Normal tt, f c).

(** [try { body } catch (error) { handler }]: what [body] wrote to the
    cache before it threw stays written. *)
Definition try_catch_M {A} (body : M A) (handler : exn -> M A) : M A :=
  fun c => match body c with
           | (Normal a, c') => (Normal a, c')
           | (Throw e, c') => handler e c'
           end.

Declare Scope js_scope.
Delimit Scope js_scope with js.
Notation "x <- m ;; k" := (bind m (fun x => k))
  (at level 61, m at next level, right associativity) : js_scope.
Notation "m ;;; k" := (bind m (fun _ => k))
  (at level 61, right associativity) : js_scope.
Local Open Scope js_scope.

(** ** The host: file system, modules and process environment *)

#[local] Set Warnings "-register-all".

(** What [fs.statSync] and [fs.readdirSync] find at a path. *)
Inductive fsnode :=
| Absent                               (* both calls throw *)
| RegularFile                          (* not a directory *)
| UnreadableDir                        (* a directory, [readdirSync] throws *)
| Directory (entries : list (string * fsnode)).

Record host := {
  (** the tree at a path, for the walker *)
  node_at : string -> fsnode;
  (** [fs.readFileSync(p)]; [None] when it throws *)
  readFileSync : string -> option (list byte);
  (** [require(p)] of a module exporting an array of strings; [None] when
      it throws *)
  require : string -> option (list jsstring);
  (** [lib/debreak]; [None] when it throws *)
  debreak : jsstring -> option jsstring;
  (** [lib/textutil.sentencify]; [None] when it throws *)
  sentencify : jsstring -> option (list jsstring);
  (** [process.env.AWS_LAMBDA_FUNCTION_NAME] *)
  AWS_LAMBDA_FUNCTION_NAME : option string;
  (** [process.env.CORPUS_PATH] *)
  CORPUS_PATH : option string;
  (** [path.join(__dirname, './corpus')] *)
  local_corpus : string
}.

(** Truthiness of an environment variable: unset and empty are falsy. *)
Definition truthy (v : option string) : bool :=
  match v with
  | None => false
  | Some s => negb (String.eqb s "")
  end.

(** ** Configuration *)

(** The [options] argument; [None] is an absent property. *)
Record options := {
  opt_maxCacheSize : option Z;
  opt_isLambda : option bool
}.

Definition no_options : options :=
  {| opt_maxCacheSize := None; opt_isLambda := None |}.

Record Config := {
  maxCacheSize : Z;
  isLambda : bool
}.

(** [v || d] on an optional number: undefined and 0 are falsy. *)
Definition number_or (v : option Z) (d : Z) : Z :=
  match v with
  | None => d
  | Some n => if n =? 0 then d else n
  end.

(** [{ ...base, ...options }]: every property present in [options] wins. *)
Definition spread (base : Config) (o : options) : Config :=
  {| maxCacheSize := match opt_maxCacheSize o with
                     | Some n => n
                     | None => maxCacheSize base
                     end;
     isLambda := match opt_isLambda o with
                 | Some b => b
                 | None => isLambda base
                 end |}.

Definition make_config (w : host) (o : options) : Config :=
  spread {| maxCacheSize := number_or (opt_maxCacheSize o) 10;
            isLambda := truthy (AWS_LAMBDA_FUNCTION_NAME w) |} o.

Definition lambda_layer_path : string :=
  "/opt/nodejs/node_modules/common-corpus/corpus-extracted".

Definition getCorpusPath (w : host) (config : Config) : string :=
  if isLambda config then lambda_layer_path
  else if truthy (CORPUS_PATH w) then
         match CORPUS_PATH w with Some p => p | None => "" end
       else local_corpus w.

(** ** The directory walker *)

Definition with_slash (dir : string) : string :=
  match JsString.last dir with
  | Some c => if Ascii.eqb c JsString.slash then dir else (dir ++ "/")%string
  | None => (dir ++ "/")%string
  end.

(** [file.match(/\.(zip|7z)$/)] *)
Definition is_archive (file : string) : bool :=
  JsString.endsWith file ".zip" || JsString.endsWith file ".7z".

(** [filelist.push(p)]; on [undefined] it throws, and the walker's inner
    [catch] leaves the list as it was. *)
Definition push (p : string) (filelist : option (list string))
  : option (list string) :=
  match filelist with
  | Some l => Some (l ++ [p])
  | None => None
  end.

(** [filelist || []] *)
Definition or_empty (filelist : option (list string)) : list string :=
  match filelist with
  | Some l => l
  | None => []
  end.

(** [walkSync(dir, filelist)], [node] being what the file system holds at
    [dir]; [None] is [undefined]. *)
Fixpoint walkSync (lambda : bool) (node : fsnode) (dir : string)
  (filelist : option (list string)) {struct node} : option (list string) :=
  let dir := with_slash dir in
  match node with
  | Directory files =>
      let filelist := Some (or_empty filelist) in
      if JsString.indexOf dir "###" =? -1 then
        (fix forEach (files : list (string * fsnode))
             (filelist : option (list string)) : option (list string) :=
           match files with
           | [] => filelist
           | (file, child) :: rest =>
               let fullPath := (dir ++ file)%string in
               forEach rest
                 match child with
                 | Absent => filelist
                 | RegularFile =>
                     if lambda && is_archive file then filelist
                     else push fullPath filelist
                 | UnreadableDir | Directory _ =>
                     walkSync lambda child (fullPath ++ "/")%string filelist
                 end
           end) files filelist
      else filelist
  | Absent | RegularFile | UnreadableDir => filelist
  end.

(** The body of [files.forEach] for one entry, and the loop. *)
Definition visit (lambda : bool) (dir : string) (entry : string * fsnode)
  (filelist : option (list string)) : option (list string) :=
  let fullPath := (dir ++ fst entry)%string in
  match snd entry with
  | Absent => filelist
  | RegularFile =>
      if lambda && is_archive (fst entry) then filelist
      else push fullPath filelist
  | UnreadableDir | Directory _ =>
      walkSync lambda (snd entry) (fullPath ++ "/")%string filelist
  end.

Definition forEach (lambda : bool) (dir : string)
  (files : list (string * fsnode)) (filelist : option (list string))
  : option (list string) :=
  fold_left (fun acc entry => visit lambda dir entry acc) files filelist.

(** ** The text loader *)

(** [iconv.decode(buffer, 'ISO8859-1')]: every byte is the code unit of the
    same value. *)
Definition iconv_decode_latin1 (text : list byte) : jsstring :=
  List.map (fun b => Z.of_N (Byte.to_N b)) text.

(** [book.charCodeAt(0)]; [None] is [NaN]. *)
Definition charCodeAt0 (book : jsstring) : option Z :=
  match book with
  | [] => None
  | c :: _ => Some c
  end.

Definition BOM : Z := 0xFEFF.

(** [if (book.charCodeAt(0) === 0xFEFF) book = book.slice(1)] *)
Definition remove_bom (book : jsstring) : jsstring :=
  match charCodeAt0 book with
  | Some c => if c =? BOM then List.tl book else book
  | None => book
  end.

Definition gettext (w : host) (filename : string) : completion jsstring :=
  try_catch
    match or_throw (readFileSync w filename) with
    | Throw e => Throw e
    | Normal text =>
        let book := iconv_decode_latin1 text in
        let book := remove_bom book in
        or_throw (debreak w book)
    end
    (fun _ =>
       Throw (Error ("Failed to read text file: " ++ Path.basename filename)%string)).

(** ** The bounded text cache *)

Definition getCachedText (w : host) (config : Config) (filename : string)
  : M jsstring :=
  let cacheKey := Path.basename filename in
  (* [textCache.has(cacheKey)] and [textCache.get(cacheKey)] *)
  cached <- gets (JsMap.get cacheKey) ;;
  match cached with
  | Some text => ret text
  | None =>
      text <- lift (gettext w filename) ;;
      size <- gets JsMap.size ;;
      (if size >=? maxCacheSize config
       then modify (fun textCache =>
                      JsMap.delete_opt (JsMap.first_key textCache) textCache)
       else ret tt) ;;;
      modify (JsMap.set cacheKey text) ;;;
      ret text
  end.

(** ** Document names *)

(** [name.replace(/\.(txt|js|zip|7z)$/g, '')] *)
Definition strip_extension (name : string) : string :=
  if JsString.endsWith name ".txt" then JsString.chop 4 name
  else if JsString.endsWith name ".js" then JsString.chop 3 name
  else if JsString.endsWith name ".zip" then JsString.chop 4 name
  else if JsString.endsWith name ".7z" then JsString.chop 3 name
  else name.

(** [name.replace(/^[\/\\]/, '')] *)
Definition strip_leading_separator (name : string) : string :=
  match name with
  | String c rest =>
      if Ascii.eqb c JsString.slash || Ascii.eqb c JsString.backslash
      then rest else name
  | EmptyString => name
  end.

Definition cleanName (root : string) (name : string) : string :=
  strip_leading_separator (JsString.remove_first root (strip_extension name)).

(** ** The document list *)

(** [{ name, text, sentences }]: the two accessors are closures. *)
Record descriptor := {
  name : string;
  text : M jsstring;
  sentences : M (list jsstring)
}.

(** [array.join('\n')] *)
Fixpoint join_lines (lines : list jsstring) : jsstring :=
  match lines with
  | [] => []
  | [l] => l
  | l :: rest => l ++ [10] ++ join_lines rest
  end.

(** The descriptor of a pre-processed sentence file. *)
Definition sentence_file (w : host) (root filename : string) : descriptor :=
  {| name := cleanName root filename;
     text := lift (try_catch
                     match or_throw (require w filename) with
                     | Normal lines => Normal (join_lines lines)
                     | Throw e => Throw e
                     end
                     (fun _ => Normal []));
     sentences := lift (try_catch (or_throw (require w filename))
                          (fun _ => Normal [])) |}.

(** The descriptor of a regular text file. *)
Definition text_file (w : host) (config : Config) (root filename : string)
  : descriptor :=
  {| name := cleanName root filename;
     text := getCachedText w config filename;
     sentences :=
       try_catch_M
         (book <- getCachedText w config filename ;;
          lift (or_throw (sentencify w book)))
         (fun _ => ret []) |}.

(** One turn of the loop over [books]. *)
Definition describe (w : host) (config : Config) (root filename : string)
  : descriptor :=
  if -1 <? JsString.indexOf filename "sentences"
  then sentence_file w root filename
  else text_file w config root filename.

(** ** The constructor and the public interface *)

Record instance := {
  texts : list descriptor;
  config : Config;
  root : string
}.

Definition Corpora (w : host) (o : options) : completion instance :=
  let config := make_config w o in
  let root := getCorpusPath w config in
  let books := walkSync (isLambda config) (node_at w root) root None in
  match books with
  | None =>
      (* [books.length] on [undefined] *)
      Throw (TypeError "Cannot read properties of undefined (reading 'length')")
  | Some books =>
      Normal {| texts := List.map (describe w config root) books;
                config := config;
                root := root |}
  end.

(** The built-in regular expressions, as far as [filter] uses them. *)
Record RegExpEngine := {
  regex : Type;
  (** [new RegExp(pattern, 'i')]; [None] when it throws a SyntaxError *)
  RegExp_i : string -> option regex;
  (** [s.match(r) !== null]; [None] when the call throws *)
  matches : string -> regex -> option bool
}.

Definition filter (E : RegExpEngine) (texts : list descriptor)
  (pattern : string) : completion (list descriptor) :=
  try_catch
    match RegExp_i E pattern with
    | None => Throw (SyntaxError "Invalid regular expression")
    | Some r =>
        Normal (List.filter
                  (fun m => match try_catch (or_throw (matches E (name m) r))
                                    (fun _ => Normal false) with
                            | Normal b => b
                            | Throw _ => false
                            end)
                  texts)
    end
    (fun _ => Normal []).


Record CacheStats := {
  cacheSize : Z;
  stats_maxCacheSize : Z;
  cachedTexts : list string
}.

Definition getCacheStats (this : instance) : M CacheStats :=
  textCache <- gets (fun c => c) ;;
  ret {| cacheSize := JsMap.size textCache;
         stats_maxCacheSize := maxCacheSize (config this);
         cachedTexts := JsMap.keys textCache |}.

Definition clearCache : M unit := modify (fun _ => JsMap.empty).

Definition getConfig (this : instance) : Config := config this.

Record Health := {
  status : string;
  textsLoaded : Z;
  health_cacheSize : Z;
  health_isLambda : bool;
  corpusPath : string;
  timestamp : string
}.

(** [healthCheck()]; [now] is [new Date().toISOString()]. *)
Definition healthCheck (this : instance) (now : string) : M Health :=
  size <- gets JsMap.size ;;
  ret {| status := "ok";
         textsLoaded := Z.of_nat (List.length (texts this));
         health_cacheSize := size;
         health_isLambda := isLambda (config this);
         corpusPath := root this;
         timestamp := now |}.

(** ** Sequences of calls on one instance *)

Inductive call :=
| CallText (i : nat)              (* [texts[i].text()] *)
| CallSentences (i : nat)         (* [texts[i].sentences()] *)
| CallClearCache
| CallGetCacheStats.

(** The cache after one call, whatever the call returned or threw;
    [texts[i]] out of range throws before anything is touched. *)
Definition after_call (this : instance) (c : call) (textCache : cache) : cache :=
  match c with
  | CallText i =>
      match nth_error (texts this) i with
      | Some d => snd (text d textCache)
      | None => textCache
      end
  | CallSentences i =>
      match nth_error (texts this) i with
      | Some d => snd (sentences d textCache)
      | None => textCache
      end
  | CallClearCache => snd (clearCache textCache)
  | CallGetCacheStats => snd (getCacheStats this textCache)
  end.

Definition after_calls (this : instance) (calls : list call) (textCache : cache)
  : cache :=
  fold_left (fun c k => after_call this k c) calls textCache.

(** ** Conformance of the regular expression engine

    Two facts of ECMAScript patterns under the flag [i], for ASCII text:
    a pattern without syntax characters matches where it occurs, letter case
    ignored, and a pattern whose first syntax character is a [[] that no
    []] follows is a syntax error. *)

Definition syntax_characters : list ascii :=
  list_ascii_of_string "^$\.*+?()[]{}|".

Definition is_ascii (c : ascii) : bool := (nat_of_ascii c <? 128)%nat.

Definition ascii_only (s : string) : bool :=
  forallb is_ascii (list_ascii_of_string s).

Definition is_literal (c : ascii) : bool :=
  is_ascii c && negb (existsb (Ascii.eqb c) syntax_characters).

Definition literal_pattern (p : string) : bool :=
  forallb is_literal (list_ascii_of_string p).

(** Literal characters, then [[], then no []]. *)
Fixpoint unterminated_class (p : string) : bool :=
  match p with
  | EmptyString => false
  | String c rest =>
      if Ascii.eqb c "["%char
      then negb (existsb (Ascii.eqb "]"%char) (list_ascii_of_string rest))
      else is_literal c && unterminated_class rest
  end.

(** Canonicalize of ECMAScript on ASCII: the upper-case letter. *)
Definition canonicalize (c : ascii) : ascii :=
  let n := nat_of_ascii c in
  if ((97 <=? n) && (n <=? 122))%nat then ascii_of_nat (n - 32) else c.

Fixpoint canonical (s : string) : string :=
  match s with
  | EmptyString => EmptyString
  | String c rest => String (canonicalize c) (canonical rest)
  end.

(** [p] occurs in [s], letter case ignored. *)
Definition occurs_ignoring_case (s p : string) : bool :=
  JsString.contains (canonical s) (canonical p).

Record conforms (E : RegExpEngine) : Prop := {
  literal_accepted :
    forall p, literal_pattern p = true ->
    exists r, RegExp_i E p = Some r /\
              forall s, ascii_only s = true ->
                        matches E s r = Some (occurs_ignoring_case s p);
  unterminated_rejected :
    forall p, unterminated_class p = true -> RegExp_i E p = None
}.

(** ** Concrete hosts for the examples *)

(** An engine that knows literal patterns only. *)
Definition literal_engine : RegExpEngine :=
  {| regex := string;
     RegExp_i := fun p => if literal_pattern p then Some p else None;
     matches := fun s r => Some (occurs_ignoring_case s r) |}.

Fixpoint assoc {A} (k : string) (l : list (string * A)) : option A :=
  match l with
  | [] => None
  | (k', a) :: l' => if String.eqb k' k then Some a else assoc k l'
  end.

(** A local host with the corpus at [/corpus]: [tree] is the directory and
    [files] holds the readable files.  [debreak] passes the text on and
    [sentencify] makes one sentence of it. *)
Definition local_host (tree : fsnode) (files : list (string * list byte))
  : host :=
  {| node_at := fun p => if String.eqb p "/corpus" then tree else Absent;
     readFileSync := fun p => assoc p files;
     require := fun _ => None;
     debreak := fun book => Some book;
     sentencify := fun book => Some [book];
     AWS_LAMBDA_FUNCTION_NAME := None;
     CORPUS_PATH := Some "/corpus";
     local_corpus := "/app/corpus" |}.

Definition capacity (n : Z) : options :=
  {| opt_maxCacheSize := Some n; opt_isLambda := None |}.

(** Three books in one directory. *)
Definition abc_host : host :=
  local_host
    (Directory [("a.txt", RegularFile); ("b.txt", RegularFile);
                ("c.txt", RegularFile)])
    [("/corpus/a.txt", [x41]); ("/corpus/b.txt", [x42]);
     ("/corpus/c.txt", [x43])].

(** Two directories with a file of the same name each; the second cannot be
    read. *)
Definition twin_host : host :=
  local_host
    (Directory [("one", Directory [("x.txt", RegularFile)]);
                ("two", Directory [("x.txt", RegularFile)])])
    [("/corpus/one/x.txt", [x31])].

(** No directory at the corpus path. *)
Definition rootless_host : host := local_host Absent [].


(** A directory of sentence modules next to a book. *)
Definition sentences_host : host :=
  {| node_at := fun p =>
       if String.eqb p "/corpus"
       then Directory [("sentences", Directory [("s.js", RegularFile);
                                                ("notes.txt", RegularFile)]);
                       ("book.txt", RegularFile)]
       else Absent;
     readFileSync := fun p => assoc p [("/corpus/book.txt", [x41])];
     require := fun p => assoc p [("/corpus/sentences/s.js", [[65; 46]; [66; 46]])];
     debreak := fun book => Some book;
     sentencify := fun book => Some [book];
     AWS_LAMBDA_FUNCTION_NAME := None;
     CORPUS_PATH := Some "/corpus";
     local_corpus := "/app/corpus" |}.

(** The instance a host and options give, with an empty one where the
    constructor throws. *)
Definition constructed (w : host) (o : options) : instance :=
  match Corpora w o with
  | Normal this => this
  | Throw _ => {| texts := []; config := make_config w o; root := "" |}
  end.

(** The cache after a load that missed and read [text]: room is made when
    the cache is full, then the entry is set. *)
Definition after_miss (config : Config) (key : string) (text : jsstring)
  (textCache : cache) : cache :=
  JsMap.set key text
    (if JsMap.size textCache >=? maxCacheSize config
     then JsMap.delete_opt (JsMap.first_key textCache) textCache
     else textCache).

(** The callback of [texts.filter] in [filter]: does the name match? *)
Definition name_matches (E : RegExpEngine) (r : regex E) (m : descriptor)
  : bool :=
  match matches E (name m) r with
  | Some b => b
  | None => false
  end.

(** ** Notions used to state what the walker lists *)

(** [p] is [d ++ file] for a directory path [d] that starts with [dir]
    and its slash, ends in a slash and is free of "###", [file] being no
    archive when [lambda]. *)
Definition listed_under (lambda : bool) (dir p : string) : Prop :=
  exists d file,
    p = (d ++ file)%string
    /\ JsString.startsWith d (with_slash dir) = true
    /\ (exists x, d = (x ++ "/")%string)
    /\ JsString.contains d "###" = false
    /\ (lambda = true -> is_archive file = false).

(** The entries the walker passes over: what cannot be stat'ed, a directory
    that cannot be listed, an archive on Lambda, a directory whose name
    contains "###". *)
Definition skipped (lambda : bool) (file : string) (child : fsnode) : Prop :=
  child = Absent
  \/ child = UnreadableDir
  \/ (child = RegularFile /\ lambda = true /\ is_archive file = true)
  \/ (exists sub, child = Directory sub
                  /\ JsString.contains file "###" = true).

(** ** The example Lambda function over the library

    The handlers of the example function that serves the corpus over HTTP.
    A response body is the object the handler passes to [JSON.stringify];
    the serialisation itself is left out.  Numbers read with [parseInt]
    arrive parsed ([None] for [NaN]), and what the clock and the process
    report is passed in. *)

Module Api.

Definition cors_headers : list (string * string) :=
  [("Content-Type", "application/json");
   ("Access-Control-Allow-Origin", "*");
   ("Access-Control-Allow-Headers", "Content-Type");
   ("Access-Control-Allow-Methods", "GET, OPTIONS")].

Definition error_headers : list (string * string) :=
  [("Content-Type", "application/json");
   ("Access-Control-Allow-Origin", "*")].

(** [event.pathParameters]; [None] is an absent property. *)
Record pathParameters := {
  category : option string;
  proxy : option string;
  path_name : option string
}.

(** [event.queryStringParameters]. *)
Record queryStringParameters := {
  (** [parseInt(queryStringParameters.limit)] *)
  limit : option Z;
  (** [parseInt(queryStringParameters.offset)] *)
  offset : option Z;
  (** [queryStringParameters.sentences] *)
  sentences_param : option string;
  (** [parseInt(queryStringParameters.maxLength)] *)
  maxLength : option Z
}.

(** [{}] *)
Definition no_path : pathParameters :=
  {| category := None; proxy := None; path_name := None |}.

Definition no_query : queryStringParameters :=
  {| limit := None; offset := None; sentences_param := None;
     maxLength := None |}.

(** [a || b] on optional strings: undefined and the empty string are
    falsy. *)
Definition string_or (a b : option string) : option string :=
  if truthy a then a else b.

(** [a || d] with a string literal [d]. *)
Definition string_or_else (a : option string) (d : string) : string :=
  match a with
  | Some s => if String.eqb s "" then d else s
  | None => d
  end.

(** [array.slice(start, stop)]: negative indices count from the end. *)
Definition slice {A} (l : list A) (start stop : Z) : list A :=
  let len := Z.of_nat (List.length l) in
  let k := if start <? 0 then Z.max (len + start) 0 else Z.min start len in
  let final := if stop <? 0 then Z.max (len + stop) 0 else Z.min stop len in
  firstn (Z.to_nat (final - k)) (skipn (Z.to_nat k) l).

Record text_entry := {
  entry_name : string;
  hasText : bool;
  hasSentences : bool
}.

Record texts_page := {
  page_category : string;
  total : Z;
  page_offset : Z;
  page_limit : Z;
  count : Z;
  page_texts : list text_entry;
  nextOffset : option Z;
  prevOffset : option Z
}.

Record text_content := {
  content_name : string;
  content : jsstring;
  content_length : Z;
  loadTimeMs : Z;
  content_sentences : option (list jsstring);
  sentenceCount : option Z;
  sentenceProcessingTimeMs : option Z
}.

Record health_report := {
  health : Health;
  cache_stats : CacheStats;
  memoryUsage : string;
  uptime : Z
}.

Inductive response_body :=
| EmptyBody
| Failure (error message : string)
| FailureDetails (error message details : string)
| FailureRequest (error message requestId : string)
| Suggestions (error message : string) (suggestions : list string)
| Page (page : texts_page)
| Content (loaded : text_content)
| HealthBody (report : health_report).

Record response := {
  statusCode : Z;
  headers : list (string * string);
  body : response_body
}.

(** [try { ... return a } catch (error) { return handler(error) }] *)
Definition try_return {A} (attempt : completion A) (handler : exn -> A) : A :=
  match attempt with
  | Normal a => a
  | Throw e => handler e
  end.

(** [`${v}`] *)
Definition template_of (v : option string) : string :=
  match v with
  | Some s => s
  | None => "undefined"
  end.

(** [Number.MAX_SAFE_INTEGER]: up to it the sums and differences of
    integers are exact in JavaScript numbers. *)
Definition MAX_SAFE_INTEGER : Z := 9007199254740991.

(** The page of [texts] that [handleTextsRequest] answers with.  The
    numbers are integers, and [offset + limit] and [offset - limit] are
    those of the code as long as [offset], [limit] and their sum stay
    within [MAX_SAFE_INTEGER]; beyond it the code rounds. *)
Definition page_of (category : option string) (limit offset : Z)
  (texts : list descriptor) : response :=
  let total := Z.of_nat (List.length texts) in
  let paginatedTexts := slice texts offset (offset + limit) in
  {| statusCode := 200;
     headers := cors_headers;
     body := Page
       {| page_category := string_or_else category "all";
          total := total;
          page_offset := offset;
          page_limit := limit;
          count := Z.of_nat (List.length paginatedTexts);
          page_texts :=
            List.map (fun text => {| entry_name := name text;
                                     hasText := true;
                                     hasSentences := true |})
              paginatedTexts;
          nextOffset := if offset + limit <? total
                        then Some (offset + limit) else None;
          prevOffset := if 0 <? offset
                        then Some (Z.max 0 (offset - limit))
                        else None |} |}.

(** [handleTextsRequest(pathParameters, queryStringParameters, headers)]
    with [headers] the CORS headers and [corpus] the instance [this]. *)
Definition handleTextsRequest (E : RegExpEngine) (this : instance)
  (pp : pathParameters) (qp : queryStringParameters) : response :=
  let category := string_or (category pp) (proxy pp) in
  let limit := number_or (limit qp) 100 in
  let offset := number_or (offset qp) 0 in
  try_return
    (if truthy category
     then match filter E (texts this) (template_of category) with
          | Throw e => Throw e
          | Normal found =>
              if Z.of_nat (List.length found) =? 0
              then Normal {| statusCode := 404;
                             headers := cors_headers;
                             body := Failure "Category Not Found"
                                       ("No texts found matching category: "
                                        ++ template_of category)%string |}
              else Normal (page_of category limit offset found)
          end
     else Normal (page_of category limit offset (texts this)))
    (fun _ =>
       {| statusCode := 400;
          headers := cors_headers;
          body := Failure "Bad Request"
                    ("Invalid filter pattern: "
                     ++ template_of category)%string |}).

(** [s.replace(/[.*+?^${}()|[\]\\]/g, '\\$&')]: a backslash goes before
    every syntax character. *)
Fixpoint escapeRegExp (s : string) : string :=
  match s with
  | EmptyString => EmptyString
  | String c rest =>
      if existsb (Ascii.eqb c) syntax_characters
      then String JsString.backslash (String c (escapeRegExp rest))
      else String c (escapeRegExp rest)
  end.

(** [`^${escaped}$`] *)
Definition exact_pattern (textName : string) : string :=
  ("^" ++ escapeRegExp textName ++ "$")%string.

(** [error.message] *)
Definition message_of (e : exn) : string :=
  match e with
  | HostError => ""
  | Error m | TypeError m | SyntaxError m => m
  end.

(** [handleTextRequest(pathParameters, queryStringParameters, headers)];
    [loadTime] and [sentenceTime] are the two differences of [Date.now()]
    readings. *)
Definition handleTextRequest (E : RegExpEngine) (this : instance)
  (pp : pathParameters) (qp : queryStringParameters)
  (loadTime sentenceTime : Z) : M response :=
  let textName := string_or (path_name pp) (proxy pp) in
  let includeSentences :=
    match sentences_param qp with
    | Some s => String.eqb s "true"
    | None => false
    end in
  let maxLength := number_or (maxLength qp) 0 in
  if negb (truthy textName)
  then ret {| statusCode := 400; headers := cors_headers;
              body := Failure "Bad Request" "Text name is required" |}
  else
    let textName := string_or_else textName "" in
    try_catch_M
      (matches <- lift (filter E (texts this) (exact_pattern textName)) ;;
       match matches with
       | [] =>
           partialMatches <- lift (filter E (texts this) textName) ;;
           match partialMatches with
           | [] =>
               ret {| statusCode := 404; headers := cors_headers;
                      body := Failure "Text Not Found"
                                ("No text found matching: " ++ textName)%string |}
           | _ :: _ =>
               ret {| statusCode := 404; headers := cors_headers;
                      body := Suggestions "Text Not Found"
                                ("No exact match for: " ++ textName)%string
                                (List.map name (slice partialMatches 0 5)) |}
           end
       | selected :: _ =>
           loaded <- text selected ;;
           let content :=
             if (0 <? maxLength)
                && (maxLength <? Z.of_nat (List.length loaded))
             then firstn (Z.to_nat maxLength) loaded ++ [46; 46; 46]
             else loaded in
           if includeSentences
           then
             lines <- sentences selected ;;
             ret {| statusCode := 200; headers := cors_headers;
                    body := Content
                      {| content_name := name selected;
                         content := content;
                         content_length := Z.of_nat (List.length content);
                         loadTimeMs := loadTime;
                         content_sentences := Some lines;
                         sentenceCount :=
                           Some (Z.of_nat (List.length lines));
                         sentenceProcessingTimeMs := Some sentenceTime |} |}
           else
             ret {| statusCode := 200; headers := cors_headers;
                    body := Content
                      {| content_name := name selected;
                         content := content;
                         content_length := Z.of_nat (List.length content);
                         loadTimeMs := loadTime;
                         content_sentences := None;
                         sentenceCount := None;
                         sentenceProcessingTimeMs := None |} |}
       end)
      (fun error =>
         ret {| statusCode := 500; headers := cors_headers;
                body := FailureDetails "Processing Error"
                          ("Failed to load text: " ++ textName)%string
                          (message_of error) |}).

(** What the clock and the process report during one invocation. *)
Record readings := {
  (** [new Date().toISOString()] in [healthCheck] *)
  now : string;
  (** [process.memoryUsage()] *)
  process_memoryUsage : string;
  (** [process.uptime()] *)
  process_uptime : Z;
  (** [Date.now() - startTime] around [text.text()] *)
  measured_load : Z;
  (** [Date.now() - sentenceStartTime] around [text.sentences()] *)
  measured_sentences : Z
}.

(** [handleHealthCheck(headers)] *)
Definition handleHealthCheck (this : instance) (r : readings) : M response :=
  health <- healthCheck this (now r) ;;
  cacheStats <- getCacheStats this ;;
  ret {| statusCode := 200; headers := cors_headers;
         body := HealthBody {| health := health;
                               cache_stats := cacheStats;
                               memoryUsage := process_memoryUsage r;
                               uptime := process_uptime r |} |}.

Record event := {
  httpMethod : option string;
  (** [event.requestContext?.http?.method] *)
  requestContext_http_method : option string;
  path : option string;
  rawPath : option string;
  event_pathParameters : option pathParameters;
  event_queryStringParameters : option queryStringParameters
}.

Record context := { awsRequestId : string }.

(** The module variable [corpus] with the cache of its instance; it
    outlives the invocation. *)
Record runtime := {
  corpus : option instance;
  corpus_cache : cache
}.

Definition cold : runtime := {| corpus := None; corpus_cache := JsMap.empty |}.

(** [{ maxCacheSize: 5 }] *)
Definition handler_options : options :=
  {| opt_maxCacheSize := Some 5; opt_isLambda := None |}.

Definition internal_error (error : exn) (ctx : context) : response :=
  {| statusCode := 500; headers := error_headers;
     body := FailureRequest "Internal Server Error" (message_of error)
               (awsRequestId ctx) |}.

(** [exports.handler(event, context)]: the response and the module state
    it leaves. *)
Definition handler (w : host) (E : RegExpEngine) (r : readings)
  (ev : event) (ctx : context) (rt : runtime) : response * runtime :=
  match
    (* [if (!corpus) corpus = new Corpora({ maxCacheSize: 5 })] *)
    match corpus rt with
    | Some this => Normal (this, corpus_cache rt)
    | None =>
        match Corpora w handler_options with
        | Normal this => Normal (this, JsMap.empty)
        | Throw error => Throw error
        end
    end
  with
  | Throw error => (internal_error error ctx, rt)
  | Normal (this, textCache) =>
      let httpMethod :=
        string_or_else
          (string_or (httpMethod ev) (requestContext_http_method ev)) "GET" in
      let path := string_or_else (string_or (path ev) (rawPath ev)) "/" in
      let pathParameters :=
        match event_pathParameters ev with Some p => p | None => no_path end in
      let queryStringParameters :=
        match event_queryStringParameters ev with
        | Some q => q
        | None => no_query
        end in
      let routed : M response :=
        if String.eqb httpMethod "OPTIONS"
        then ret {| statusCode := 200; headers := cors_headers;
                    body := EmptyBody |}
        else if String.eqb path "/health"
        then handleHealthCheck this r
        else if String.eqb path "/texts" || JsString.startsWith path "/texts/"
        then ret (handleTextsRequest E this pathParameters
                    queryStringParameters)
        else if JsString.startsWith path "/text/"
        then handleTextRequest E this pathParameters queryStringParameters
               (measured_load r) (measured_sentences r)
        else ret {| statusCode := 404; headers := cors_headers;
                    body := Failure "Not Found"
                              "Available endpoints: /health, /texts, /texts/{category}, /text/{name}" |} in
      match routed textCache with
      | (Normal answer, textCache') =>
          (answer, {| corpus := Some this; corpus_cache := textCache' |})
      | (Throw error, textCache') =>
          (internal_error error ctx,
           {| corpus := Some this; corpus_cache := textCache' |})
      end
  end.

(** One invocation after the other on the same container. *)
Definition serve (w : host) (E : RegExpEngine)
  (requests : list (readings * event * context)) (rt : runtime) : runtime :=
  fold_left (fun rt q => snd (handler w E (fst (fst q)) (snd (fst q)) (snd q) rt))
    requests rt.

(** The text an escaped pattern stands for: the backslashes dropped. *)
Fixpoint unescape (p : string) : string :=
  match p with
  | EmptyString => EmptyString
  | String c rest =>
      if Ascii.eqb c JsString.backslash
      then match rest with
           | String c' rest' => String c' (unescape rest')
           | EmptyString => EmptyString
           end
      else String c (unescape rest)
  end.

(** No syntax character stands unescaped and no backslash stands alone. *)
Fixpoint well_escaped (p : string) : bool :=
  match p with
  | EmptyString => true
  | String c rest =>
      if Ascii.eqb c JsString.backslash
      then match rest with
           | String c' rest' =>
               existsb (Ascii.eqb c') syntax_characters && well_escaped rest'
           | EmptyString => false
           end
      else negb (existsb (Ascii.eqb c) syntax_characters) && well_escaped rest
  end.

(** A third fact of ECMAScript patterns under the flag [i], for ASCII
    text: [^], an escaped text and [$] match the names equal to that text,
    letter case ignored. *)
Definition conforms_exact (E : RegExpEngine) : Prop :=
  forall s, ascii_only s = true ->
  exists r, RegExp_i E (exact_pattern s) = Some r
            /\ forall n, ascii_only n = true ->
                         matches E n r
                         = Some (String.eqb (canonical n) (canonical s)).

(** The entry a page shows for a document. *)
Definition entry_of (d : descriptor) : text_entry :=
  {| entry_name := name d; hasText := true; hasSentences := true |}.

(** The request for one page of the whole list. *)
Definition page_query (limit offset : Z) : queryStringParameters :=
  {| limit := Some limit; offset := Some offset; sentences_param := None;
     maxLength := None |}.


End Api.

(** An engine for the examples that knows literal patterns and the
    patterns [exact_pattern] builds. *)
Inductive toy_regex :=
| ToyLiteral (p : string)
| ToyExact (s : string).

Definition parse_exact (p : string) : option string :=
  match p with
  | String c rest =>
      if Ascii.eqb c "^"%char && JsString.endsWith rest "$"
         && Api.well_escaped (JsString.chop 1 rest)
      then Some (Api.unescape (JsString.chop 1 rest))
      else None
  | EmptyString => None
  end.

Definition exact_engine : RegExpEngine :=
  {| regex := toy_regex;
     RegExp_i := fun p =>
       if literal_pattern p then Some (ToyLiteral p)
       else match parse_exact p with
            | Some s => Some (ToyExact s)
            | None => None
            end;
     matches := fun n r =>
       match r with
       | ToyLiteral p => Some (occurs_ignoring_case n p)
       | ToyExact s => Some (String.eqb (canonical n) (canonical s))
       end |}.

(** A host on Lambda whose layer holds [tree] and the readable [files]. *)
Definition lambda_host (tree : fsnode) (files : list (string * list byte))
  : host :=
  {| node_at := fun p => if String.eqb p lambda_layer_path then tree else Absent;
     readFileSync := fun p => assoc p files;
     require := fun _ => None;
     debreak := fun book => Some book;
     sentencify := fun book => Some [book];
     AWS_LAMBDA_FUNCTION_NAME := Some "corpus-api";
     CORPUS_PATH := None;
     local_corpus := "/var/task/corpus" |}.

Definition quiet : Api.readings :=
  {| Api.now := "2025-01-01T00:00:00.000Z";
     Api.process_memoryUsage := "{}";
     Api.process_uptime := 1;
     Api.measured_load := 2;
     Api.measured_sentences := 3 |}.

Definition get_text (name : string) (maxLength : option Z) : Api.event :=
  {| Api.httpMethod := Some "GET";
     Api.requestContext_http_method := None;
     Api.path := Some ("/text/" ++ name)%string;
     Api.rawPath := None;
     Api.event_pathParameters :=
       Some {| Api.category := None; Api.proxy := None;
               Api.path_name := Some name |};
     Api.event_queryStringParameters :=
       Some {| Api.limit := None; Api.offset := None;
               Api.sentences_param := None; Api.maxLength := maxLength |} |}.

Definition request_1 : Api.context := {| Api.awsRequestId := "req-1" |}.

(** What the container holds between invocations. *)
Definition container_ok (w : host) (rt : Api.runtime) : Prop :=
  match Api.corpus rt with
  | Some this =>
      Corpora w Api.handler_options = Normal this
      /\ maxCacheSize (config this) = 5
      /\ JsMap.size (Api.corpus_cache rt) <= 5
      /\ NoDup (JsMap.keys (Api.corpus_cache rt))
  | None => rt = Api.cold
  end.

(** Six books in the layer, and a request for each in turn. *)
Definition six_host : host :=
  lambda_host
    (Directory [("a.txt", RegularFile); ("b.txt", RegularFile);
                ("c.txt", RegularFile); ("d.txt", RegularFile);
                ("e.txt", RegularFile); ("f.txt", RegularFile)])
    (List.map (fun n => ((lambda_layer_path ++ "/" ++ n ++ ".txt")%string,
                         [x41]))
       ["a"; "b"; "c"; "d"; "e"; "f"]).

Definition six_requests : list (Api.readings * Api.event * Api.context) :=
  List.map (fun n => (quiet, get_text n None, request_1))
    ["a"; "b"; "c"; "d"; "e"; "f"].

(** * Properties *)

(** ** The model on small inputs *)

Example basename_of_file : Path.basename "/corpus/lit/a.txt" = "a.txt".
Proof. reflexivity. Qed.

Example basename_of_directory : Path.basename "/corpus/lit//" = "lit".
Proof. reflexivity. Qed.

Example basename_of_root : Path.basename "/" = "".
Proof. reflexivity. Qed.

Example cleanName_of_book :
  cleanName "/corpus" "/corpus/lit/a.b.txt" = "lit/a.b".
Proof. reflexivity. Qed.

Example cleanName_other_extension :
  cleanName "/corpus" "/corpus/notes.txt.bak" = "notes.txt.bak".
Proof. reflexivity. Qed.

Example indexOf_found : JsString.indexOf "/c/sentences/x.js" "sentences" = 3.
Proof. reflexivity. Qed.

Example indexOf_absent : JsString.indexOf "/c/books/x.txt" "sentences" = -1.
Proof. reflexivity. Qed.

Example config_default :
  make_config abc_host no_options = {| maxCacheSize := 10; isLambda := false |}.
Proof. reflexivity. Qed.

Example config_zero :
  make_config abc_host (capacity 0) = {| maxCacheSize := 0; isLambda := false |}.
Proof. reflexivity. Qed.

Example walk_local :
  walkSync false
    (Directory [("lit", Directory [("a.txt", RegularFile);
                                   ("old.zip", RegularFile)]);
                ("dangling", Absent);
                ("###", Directory [("sys.txt", RegularFile)]);
                ("b.txt", RegularFile)])
    "/corpus" None
  = Some ["/corpus/lit/a.txt"; "/corpus/lit/old.zip"; "/corpus/b.txt"].
Proof. reflexivity. Qed.

Example walk_lambda :
  walkSync true
    (Directory [("lit", Directory [("a.txt", RegularFile);
                                   ("old.zip", RegularFile)]);
                ("b.7z", RegularFile)])
    "/opt/corpus/" None
  = Some ["/opt/corpus/lit/a.txt"].
Proof. reflexivity. Qed.

Example names_of_abc :
  List.map name (texts (constructed abc_host no_options)) = ["a"; "b"; "c"].
Proof. reflexivity. Qed.

(** ** The insertion-ordered map *)

Module JsMapFacts.
Section Facts.
Context {V : Type}.
Implicit Types (m : JsMap.t V) (k : string) (v : V).

Lemma size_nonneg m : 0 <= JsMap.size m.
Proof. unfold JsMap.size. lia. Qed.

Lemma size_cons k v m : JsMap.size ((k, v) :: m) = JsMap.size m + 1.
Proof. unfold JsMap.size. cbn [List.length]. lia. Qed.

Lemma get_set_same k v m : JsMap.get k (JsMap.set k v m) = Some v.
Proof.
  induction m as [|[k' v'] m IH]; cbn.
  - now rewrite String.eqb_refl.
  - destruct (String.eqb k' k) eqn:E; cbn.
    + now rewrite String.eqb_refl.
    + now rewrite E.
Qed.

Lemma set_absent k v m :
  JsMap.get k m = None -> JsMap.set k v m = m ++ [(k, v)].
Proof.
  induction m as [|[k' v'] m IH]; cbn; [reflexivity|].
  destruct (String.eqb k' k); [discriminate|].
  intros H. now rewrite IH.
Qed.

Lemma size_set_absent k v m :
  JsMap.get k m = None -> JsMap.size (JsMap.set k v m) = JsMap.size m + 1.
Proof.
  intros H. rewrite (set_absent _ _ _ H). unfold JsMap.size.
  rewrite length_app. cbn. lia.
Qed.

Lemma delete_first k v m :
  JsMap.delete_opt (JsMap.first_key ((k, v) :: m)) ((k, v) :: m) = m.
Proof. cbn. now rewrite String.eqb_refl. Qed.

Lemma get_tail k k' v m :
  JsMap.get k ((k', v) :: m) = None -> JsMap.get k m = None.
Proof. cbn. now destruct (String.eqb k' k). Qed.

Lemma has_get k m :
  JsMap.has k m = true <-> exists v, JsMap.get k m = Some v.
Proof.
  unfold JsMap.has. destruct (JsMap.get k m) as [v|].
  - split; [eauto|reflexivity].
  - split; [discriminate|]. intros [v H]. discriminate.
Qed.


Lemma get_not_in_keys k m : JsMap.get k m = None -> ~ In k (JsMap.keys m).
Proof.
  induction m as [|[k' v'] m IH]; cbn; [tauto|].
  destruct (String.eqb_spec k' k); [discriminate|].
  intros H [E|E]; [congruence|]. now apply IH.
Qed.

End Facts.
End JsMapFacts.

(** ** The cached loader, case by case *)

Section Loader.
Variables (w : host) (cfg : Config).

Lemma getCachedText_hit filename text textCache :
  JsMap.get (Path.basename filename) textCache = Some text ->
  getCachedText w cfg filename textCache = (Normal text, textCache).
Proof.
  intros H. unfold getCachedText, bind, gets. now rewrite H.
Qed.

Lemma getCachedText_throws filename e textCache :
  JsMap.get (Path.basename filename) textCache = None ->
  gettext w filename = Throw e ->
  getCachedText w cfg filename textCache = (Throw e, textCache).
Proof.
  intros H G. unfold getCachedText, bind, gets, lift. now rewrite H, G.
Qed.

Lemma getCachedText_miss filename text textCache :
  JsMap.get (Path.basename filename) textCache = None ->
  gettext w filename = Normal text ->
  getCachedText w cfg filename textCache
  = (Normal text, after_miss cfg (Path.basename filename) text textCache).
Proof.
  intros H G. unfold getCachedText, after_miss, bind, gets, lift, modify, ret.
  rewrite H, G.
  now destruct (JsMap.size textCache >=? maxCacheSize cfg).
Qed.

(** The three cases are all there is. *)
Lemma getCachedText_cases filename textCache :
  (exists text,
      JsMap.get (Path.basename filename) textCache = Some text /\
      getCachedText w cfg filename textCache = (Normal text, textCache))
  \/ (exists e,
      JsMap.get (Path.basename filename) textCache = None /\
      gettext w filename = Throw e /\
      getCachedText w cfg filename textCache = (Throw e, textCache))
  \/ (exists text,
      JsMap.get (Path.basename filename) textCache = None /\
      gettext w filename = Normal text /\
      getCachedText w cfg filename textCache
      = (Normal text, after_miss cfg (Path.basename filename) text textCache)).
Proof.
  destruct (JsMap.get (Path.basename filename) textCache) as [text|] eqn:H.
  - left. exists text. split; [reflexivity|]. now apply getCachedText_hit.
  - destruct (gettext w filename) as [text|e] eqn:G.
    + right. right. exists text. repeat split; trivial.
      now apply getCachedText_miss.
    + right. left. exists e. repeat split; trivial.
      now apply getCachedText_throws.
Qed.

(** A miss never grows the cache beyond the larger of the capacity and one
    entry. *)
Lemma after_miss_bound key text textCache :
  JsMap.get key textCache = None ->
  JsMap.size textCache <= Z.max (maxCacheSize cfg) 1 ->
  JsMap.size (after_miss cfg key text textCache) <= Z.max (maxCacheSize cfg) 1.
Proof.
  intros H B. unfold after_miss.
  destruct (JsMap.size textCache >=? maxCacheSize cfg) eqn:Full.
  - destruct textCache as [|[k v] m].
    + cbn. lia.
    + rewrite JsMapFacts.delete_first.
      rewrite JsMapFacts.size_set_absent
        by (eapply JsMapFacts.get_tail; eassumption).
      rewrite JsMapFacts.size_cons in B. lia.
  - rewrite JsMapFacts.size_set_absent by assumption.
    rewrite Z.geb_leb in Full. apply Z.leb_gt in Full. lia.
Qed.

Lemma after_miss_nodup key text textCache :
  JsMap.get key textCache = None ->
  NoDup (JsMap.keys textCache) ->
  NoDup (JsMap.keys (after_miss cfg key text textCache)).
Proof.
  intros H N. unfold after_miss.
  assert (A : forall m : cache,
             JsMap.get key m = None -> NoDup (JsMap.keys m) ->
             NoDup (JsMap.keys (JsMap.set key text m))).
  { intros m G D. rewrite (JsMapFacts.set_absent _ _ _ G).
    unfold JsMap.keys. rewrite map_app. cbn.
    apply NoDup_app; [exact D | repeat constructor; intros [] |].
    intros k I [<-|[]]. now apply (JsMapFacts.get_not_in_keys _ _ G). }
  destruct (JsMap.size textCache >=? maxCacheSize cfg); [|now apply A].
  destruct textCache as [|[k v] m]; [now apply A|].
  rewrite JsMapFacts.delete_first. apply A.
  - eapply JsMapFacts.get_tail. exact H.
  - now inversion N.
Qed.

(** Whatever holds of the cache and survives a miss survives a load. *)
Lemma getCachedText_preserves (P : cache -> Prop) filename textCache :
  (forall key text c,
      JsMap.get key c = None -> P c -> P (after_miss cfg key text c)) ->
  P textCache ->
  P (snd (getCachedText w cfg filename textCache)).
Proof.
  intros Miss H.
  destruct (getCachedText_cases filename textCache)
    as [(t & _ & ->)|[(e & _ & _ & ->)|(t & G & _ & ->)]]; cbn [snd]; trivial.
  now apply Miss.
Qed.

(** [sentences()] of a text file leaves the cache as [text()] does. *)
Lemma sentences_cache root filename textCache :
  snd (sentences (text_file w cfg root filename) textCache)
  = snd (getCachedText w cfg filename textCache).
Proof.
  cbn [sentences text_file]. unfold try_catch_M, bind, lift, ret.
  destruct (getCachedText w cfg filename textCache) as [[t|e] c']; cbn;
    [|reflexivity].
  now destruct (or_throw (sentencify w t)).
Qed.

Lemma sentence_file_text_cache root filename textCache :
  snd (text (sentence_file w root filename) textCache) = textCache.
Proof. reflexivity. Qed.

Lemma sentence_file_sentences_cache root filename textCache :
  snd (sentences (sentence_file w root filename) textCache) = textCache.
Proof. reflexivity. Qed.

(** ... and every accessor of every descriptor. *)
Lemma descriptor_preserves (P : cache -> Prop) root filename textCache :
  (forall key text c,
      JsMap.get key c = None -> P c -> P (after_miss cfg key text c)) ->
  P textCache ->
  P (snd (text (describe w cfg root filename) textCache))
  /\ P (snd (sentences (describe w cfg root filename) textCache)).
Proof.
  intros Miss H. unfold describe.
  destruct (-1 <? JsString.indexOf filename "sentences").
  - now rewrite sentence_file_text_cache, sentence_file_sentences_cache.
  - rewrite sentences_cache. cbn [text text_file].
    split; now apply getCachedText_preserves.
Qed.

End Loader.

(** ** Instances and sequences of calls *)

Lemma describe_by_path w cfg root filename :
  describe w cfg root filename
  = if JsString.contains filename "sentences"
    then sentence_file w root filename
    else text_file w cfg root filename.
Proof. reflexivity. Qed.

Lemma describe_text_file w cfg root filename :
  JsString.contains filename "sentences" = false ->
  describe w cfg root filename = text_file w cfg root filename.
Proof. intros H. now rewrite describe_by_path, H. Qed.

Lemma describe_sentence_file w cfg root filename :
  JsString.contains filename "sentences" = true ->
  describe w cfg root filename = sentence_file w root filename.
Proof. intros H. now rewrite describe_by_path, H. Qed.

(** What a successful construction built. *)
Lemma Corpora_normal w o this :
  Corpora w o = Normal this ->
  config this = make_config w o
  /\ root this = getCorpusPath w (make_config w o)
  /\ exists books,
      walkSync (isLambda (config this)) (node_at w (root this)) (root this) None
      = Some books
      /\ texts this = List.map (describe w (config this) (root this)) books.
Proof.
  unfold Corpora. intros H.
  destruct (walkSync _ _ _ None) as [books|] eqn:W; [|discriminate].
  injection H as <-. cbn. repeat split; trivial. now exists books.
Qed.

(** The invariant rule: a property of the cache that holds of the empty
    cache and survives every miss holds after every sequence of calls. *)
Lemma after_call_preserves w o this (P : cache -> Prop) k textCache :
  Corpora w o = Normal this ->
  P JsMap.empty ->
  (forall key text c,
      JsMap.get key c = None -> P c ->
      P (after_miss (config this) key text c)) ->
  P textCache ->
  P (after_call this k textCache).
Proof.
  intros C Empty Miss H.
  destruct (Corpora_normal _ _ _ C) as (_ & _ & books & _ & T).
  assert (D : forall i d, nth_error (texts this) i = Some d ->
                          exists f, d = describe w (config this) (root this) f).
  { intros i d N. rewrite T in N. apply nth_error_In, in_map_iff in N.
    destruct N as (f & <- & _). now exists f. }
  destruct k as [i|i| |]; cbn [after_call].
  - destruct (nth_error (texts this) i) as [d|] eqn:N; [|assumption].
    destruct (D _ _ N) as [f ->]. now apply descriptor_preserves.
  - destruct (nth_error (texts this) i) as [d|] eqn:N; [|assumption].
    destruct (D _ _ N) as [f ->]. now apply descriptor_preserves.
  - exact Empty.
  - assumption.
Qed.

Lemma after_calls_preserves w o this (P : cache -> Prop) calls textCache :
  Corpora w o = Normal this ->
  P JsMap.empty ->
  (forall key text c,
      JsMap.get key c = None -> P c ->
      P (after_miss (config this) key text c)) ->
  P textCache ->
  P (after_calls this calls textCache).
Proof.
  intros C Empty Miss. revert textCache. unfold after_calls.
  induction calls as [|k calls IH]; intros textCache H; cbn [fold_left].
  - assumption.
  - apply IH. now apply (after_call_preserves w o).
Qed.

Lemma after_calls_bound w o this calls :
  Corpora w o = Normal this ->
  JsMap.size (after_calls this calls JsMap.empty)
  <= Z.max (maxCacheSize (config this)) 1.
Proof.
  intros C.
  apply (after_calls_preserves w o this
           (fun c => JsMap.size c <= Z.max (maxCacheSize (config this)) 1));
    trivial.
  - cbn. lia.
  - intros key text c. apply after_miss_bound.
  - cbn. lia.
Qed.

(** No key occurs twice: the list is a map. *)
Lemma after_calls_nodup w o this calls :
  Corpora w o = Normal this ->
  NoDup (JsMap.keys (after_calls this calls JsMap.empty)).
Proof.
  intros C.
  apply (after_calls_preserves w o this (fun c => NoDup (JsMap.keys c)));
    trivial; try constructor.
  intros key text c. apply after_miss_nodup.
Qed.

(** Three loads into a cache of two, with or without a hit in between. *)
Section ThreeBooks.
Variables (w : host) (cfg : Config) (root : string).
Variables (fa fb fc : string) (ta tb tc : jsstring).
Hypothesis two : maxCacheSize cfg = 2.
Hypothesis read_a : gettext w fa = Normal ta.
Hypothesis read_b : gettext w fb = Normal tb.
Hypothesis read_c : gettext w fc = Normal tc.
Hypothesis ab : Path.basename fa <> Path.basename fb.
Hypothesis ac : Path.basename fa <> Path.basename fc.
Hypothesis bc : Path.basename fb <> Path.basename fc.

Let ka := Path.basename fa.
Let kb := Path.basename fb.
Let kc := Path.basename fc.

Lemma load_a :
  getCachedText w cfg fa JsMap.empty = (Normal ta, [(ka, ta)]).
Proof.
  rewrite (getCachedText_miss _ _ _ ta) by trivial.
  unfold after_miss. rewrite two. reflexivity.
Qed.

Lemma load_b :
  getCachedText w cfg fb [(ka, ta)] = (Normal tb, [(ka, ta); (kb, tb)]).
Proof.
  assert (N : String.eqb ka kb = false) by now apply String.eqb_neq.
  rewrite (getCachedText_miss _ _ _ tb); trivial.
  - unfold after_miss. rewrite two. cbn. fold ka kb. now rewrite N.
  - cbn. fold ka kb. now rewrite N.
Qed.

Lemma hit_a :
  getCachedText w cfg fa [(ka, ta); (kb, tb)]
  = (Normal ta, [(ka, ta); (kb, tb)]).
Proof.
  apply getCachedText_hit. cbn. fold ka. now rewrite String.eqb_refl.
Qed.

Lemma load_c :
  getCachedText w cfg fc [(ka, ta); (kb, tb)]
  = (Normal tc, [(kb, tb); (kc, tc)]).
Proof.
  assert (N1 : String.eqb ka kc = false) by now apply String.eqb_neq.
  assert (N2 : String.eqb kb kc = false) by now apply String.eqb_neq.
  rewrite (getCachedText_miss _ _ _ tc); trivial.
  - unfold after_miss. rewrite two. cbn. fold ka kb kc.
    rewrite String.eqb_refl. cbn. now rewrite N2.
  - cbn. fold ka kb kc. now rewrite N1, N2.
Qed.

End ThreeBooks.

(** ** The bounded cache *)

(** C1, as amended: on an instance whose capacity is at least 1, after any
    sequence of calls the cache holds at most [maxCacheSize] entries, no
    key twice; and with capacity 2, loading three text files with distinct
    base names in order leaves exactly the entries of the second and the
    third. *)
Theorem cache_capacity_invariant :
  forall (w : host) (o : options) (this : instance),
    Corpora w o = Normal this ->
    1 <= maxCacheSize (config this) ->
    (forall calls,
        JsMap.size (after_calls this calls JsMap.empty)
        <= maxCacheSize (config this)
        /\ NoDup (JsMap.keys (after_calls this calls JsMap.empty)))
    /\ (maxCacheSize (config this) = 2 ->
        forall fa fb fc ta tb tc,
          JsString.contains fa "sentences" = false ->
          JsString.contains fb "sentences" = false ->
          JsString.contains fc "sentences" = false ->
          gettext w fa = Normal ta ->
          gettext w fb = Normal tb ->
          gettext w fc = Normal tc ->
          Path.basename fa <> Path.basename fb ->
          Path.basename fa <> Path.basename fc ->
          Path.basename fb <> Path.basename fc ->
          let book f := text (describe w (config this) (root this) f) in
          snd (book fc (snd (book fb (snd (book fa JsMap.empty)))))
          = [(Path.basename fb, tb); (Path.basename fc, tc)]).
Proof.
  intros w o this C One. split.
  - intros calls. split; [|now apply (after_calls_nodup w o)].
    pose proof (after_calls_bound w o this calls C) as B.
    rewrite Z.max_l in B by lia. exact B.
  - intros two fa fb fc ta tb tc sa sb sc ra rb rc ab ac bc book. subst book. cbv beta.
    rewrite !describe_text_file by assumption. cbn [text text_file].
    rewrite (load_a w _ fa ta two ra). cbn [snd].
    rewrite (load_b w _ fa fb ta tb two rb ab). cbn [snd].
    now rewrite (load_c w _ fa fb fc ta tb tc two rc ac bc).
Qed.

Lemma cache_capacity_invariant_witness :
  let this := constructed abc_host (capacity 2) in
  JsMap.size
    (after_calls this [CallText 0%nat; CallText 1%nat; CallText 2%nat]
       JsMap.empty) <= 2
  /\ snd (text (describe abc_host (config this) (root this) "/corpus/c.txt")
            (snd (text (describe abc_host (config this) (root this)
                          "/corpus/b.txt")
                    (snd (text (describe abc_host (config this) (root this)
                                  "/corpus/a.txt") JsMap.empty)))))
     = [("b.txt", [66]); ("c.txt", [67])].
Proof.
  intros this.
  destruct (cache_capacity_invariant abc_host (capacity 2) this eq_refl)
    as [Bound Three].
  - cbn. lia.
  - split.
    + apply (proj1 (Bound _)).
    + apply (Three eq_refl "/corpus/a.txt" "/corpus/b.txt" "/corpus/c.txt"
               [65] [66] [67]);
        solve [reflexivity | discriminate].
Defined.

(** C1 as stated fails at capacity 0: one load leaves one entry. *)
Lemma capacity_zero_exceeded :
  let this := constructed abc_host (capacity 0) in
  Corpora abc_host (capacity 0) = Normal this
  /\ maxCacheSize (config this) = 0
  /\ after_calls this [CallText 0%nat] JsMap.empty = [("a.txt", [65])]
  /\ ~ JsMap.size (after_calls this [CallText 0%nat] JsMap.empty)
       <= maxCacheSize (config this).
Proof.
  cbv zeta. repeat split; try reflexivity. vm_compute. intros H. now apply H.
Qed.

(** A miss on a full cache drops the oldest entry and appends the new one;
    a miss with room left only appends. *)
Lemma after_miss_full cfg key text k v m :
  JsMap.get key ((k, v) :: m) = None ->
  maxCacheSize cfg <= JsMap.size ((k, v) :: m) ->
  after_miss cfg key text ((k, v) :: m) = m ++ [(key, text)].
Proof.
  intros Miss Full. unfold after_miss.
  replace (JsMap.size ((k, v) :: m) >=? maxCacheSize cfg) with true
    by (symmetry; rewrite Z.geb_leb; now apply Z.leb_le).
  rewrite JsMapFacts.delete_first. apply JsMapFacts.set_absent.
  eapply JsMapFacts.get_tail. exact Miss.
Qed.

Lemma after_miss_room cfg key text textCache :
  JsMap.get key textCache = None ->
  JsMap.size textCache < maxCacheSize cfg ->
  after_miss cfg key text textCache = textCache ++ [(key, text)].
Proof.
  intros Miss Room. unfold after_miss.
  replace (JsMap.size textCache >=? maxCacheSize cfg) with false
    by (symmetry; rewrite Z.geb_leb; now apply Z.leb_gt).
  now apply JsMapFacts.set_absent.
Qed.

(** C2: eviction follows insertion order and reading does not alter it.
    A hit returns the cached text and leaves the cache, entry for entry, as
    it was; a miss on a full cache drops the first, that is the oldest
    inserted, entry and appends the new one; a miss with room left only
    appends.  With capacity 2, after loading [fa] and [fb], reading [fa]
    again and loading [fc], it is [fa] that is gone and [fb] that stays. *)
Theorem eviction_in_insertion_order :
  forall (w : host) (cfg : Config) (base : string),
    let book f := text (describe w cfg base f) in
    (forall f t textCache,
        JsString.contains f "sentences" = false ->
        JsMap.get (Path.basename f) textCache = Some t ->
        book f textCache = (Normal t, textCache))
    /\ (forall f t k v m,
           JsString.contains f "sentences" = false ->
           JsMap.get (Path.basename f) ((k, v) :: m) = None ->
           gettext w f = Normal t ->
           maxCacheSize cfg <= JsMap.size ((k, v) :: m) ->
           book f ((k, v) :: m) = (Normal t, m ++ [(Path.basename f, t)]))
    /\ (forall f t textCache,
           JsString.contains f "sentences" = false ->
           JsMap.get (Path.basename f) textCache = None ->
           gettext w f = Normal t ->
           JsMap.size textCache < maxCacheSize cfg ->
           book f textCache = (Normal t, textCache ++ [(Path.basename f, t)]))
    /\ (forall (fa fb fc : string) (ta tb tc : jsstring),
           maxCacheSize cfg = 2 ->
           JsString.contains fa "sentences" = false ->
           JsString.contains fb "sentences" = false ->
           JsString.contains fc "sentences" = false ->
           gettext w fa = Normal ta ->
           gettext w fb = Normal tb ->
           gettext w fc = Normal tc ->
           Path.basename fa <> Path.basename fb ->
           Path.basename fa <> Path.basename fc ->
           Path.basename fb <> Path.basename fc ->
           let loaded := snd (book fb (snd (book fa JsMap.empty))) in
           loaded = [(Path.basename fa, ta); (Path.basename fb, tb)]
           /\ book fa loaded = (Normal ta, loaded)
           /\ snd (book fc (snd (book fa loaded)))
              = [(Path.basename fb, tb); (Path.basename fc, tc)]
           /\ JsMap.has (Path.basename fa)
                (snd (book fc (snd (book fa loaded)))) = false
           /\ JsMap.has (Path.basename fb)
                (snd (book fc (snd (book fa loaded)))) = true).
Proof.
  intros w cfg base book. subst book. cbv beta.
  split; [|split; [|split]].
  - intros f t textCache sf H. rewrite describe_text_file by assumption.
    now apply getCachedText_hit.
  - intros f t k v m sf Miss Read Full.
    rewrite describe_text_file by assumption. cbn [text text_file].
    rewrite (getCachedText_miss _ _ _ t) by assumption.
    now rewrite after_miss_full.
  - intros f t textCache sf Miss Read Room.
    rewrite describe_text_file by assumption. cbn [text text_file].
    rewrite (getCachedText_miss _ _ _ t) by assumption.
    now rewrite after_miss_room.
  - intros fa fb fc ta tb tc two sa sb sc ra rb rc ab ac bc loaded.
    assert (L : loaded = [(Path.basename fa, ta); (Path.basename fb, tb)]).
    { subst loaded. rewrite !describe_text_file by assumption.
      cbn [text text_file].
      rewrite (load_a w _ fa ta two ra). cbn [snd].
      now rewrite (load_b w _ fa fb ta tb two rb ab). }
    rewrite L. rewrite !describe_text_file by assumption.
    cbn [text text_file].
    rewrite (hit_a w _ fa fb ta tb). cbn [snd].
    rewrite (load_c w _ fa fb fc ta tb tc two rc ac bc). cbn [snd].
    repeat split.
    + unfold JsMap.has. cbn.
      apply String.eqb_neq in ab, ac. rewrite String.eqb_sym in ab, ac.
      now rewrite ab, ac.
    + unfold JsMap.has. cbn. now rewrite String.eqb_refl.
Qed.

Lemma eviction_in_insertion_order_witness :
  let book f :=
    text (describe abc_host {| maxCacheSize := 2; isLambda := false |}
            "/corpus" f) in
  let loaded :=
    snd (book "/corpus/b.txt" (snd (book "/corpus/a.txt" JsMap.empty))) in
  book "/corpus/a.txt" loaded = (Normal [65], loaded)
  /\ snd (book "/corpus/c.txt" (snd (book "/corpus/a.txt" loaded)))
     = [("b.txt", [66]); ("c.txt", [67])]
  /\ book "/corpus/c.txt" [("a.txt", [65]); ("b.txt", [66])]
     = (Normal [67], [("b.txt", [66]); ("c.txt", [67])]).
Proof.
  intros book loaded.
  destruct (eviction_in_insertion_order abc_host
              {| maxCacheSize := 2; isLambda := false |} "/corpus")
    as (_ & Oldest & _ & Scenario).
  destruct (Scenario "/corpus/a.txt" "/corpus/b.txt" "/corpus/c.txt"
              [65] [66] [67])
    as (_ & Hit & Final & _);
    try solve [reflexivity | discriminate].
  split; [exact Hit|]. split; [exact Final|].
  apply (Oldest "/corpus/c.txt" [67] "a.txt" [65] [("b.txt", [66])]);
    solve [reflexivity | cbn; lia].
Defined.

(** Whether the constructor returns does not depend on the capacity. *)
Lemma Corpora_accepts_any_capacity w o o' this' :
  opt_isLambda o' = opt_isLambda o ->
  Corpora w o' = Normal this' ->
  exists this, Corpora w o = Normal this.
Proof.
  intros L. unfold Corpora.
  assert (I : isLambda (make_config w o') = isLambda (make_config w o)).
  { unfold make_config, spread. cbn. now rewrite L. }
  assert (R : getCorpusPath w (make_config w o')
              = getCorpusPath w (make_config w o)).
  { unfold getCorpusPath. now rewrite I. }
  rewrite I, R.
  destruct (walkSync _ _ _ None); [eauto | discriminate].
Qed.

Lemma after_miss_capacity_zero cfg key text textCache :
  maxCacheSize cfg = 0 ->
  JsMap.size textCache <= 1 ->
  after_miss cfg key text textCache = [(key, text)].
Proof.
  intros Z B. unfold after_miss. rewrite Z.
  pose proof (JsMapFacts.size_nonneg textCache) as P.
  replace (JsMap.size textCache >=? 0) with true
    by (symmetry; rewrite Z.geb_leb; now apply Z.leb_le).
  destruct textCache as [|[k v] [|e m]].
  - reflexivity.
  - now rewrite JsMapFacts.delete_first.
  - unfold JsMap.size in B. cbn [List.length] in B. lia.
Qed.

(** C6, as amended: capacity 0 is accepted by the constructor wherever any
    capacity is, and the cache then holds at most one entry: after any
    sequence of calls its size is at most 1, and a load that reads a text
    file leaves that file's entry alone in the cache. *)
Theorem capacity_zero_keeps_last :
  forall (w : host) (o : options),
    opt_maxCacheSize o = Some 0 ->
    (forall o' this',
        opt_isLambda o' = opt_isLambda o ->
        Corpora w o' = Normal this' ->
        exists this, Corpora w o = Normal this)
    /\ (forall this,
           Corpora w o = Normal this ->
           maxCacheSize (config this) = 0
           /\ (forall calls,
                  JsMap.size (after_calls this calls JsMap.empty) <= 1)
           /\ (forall f t textCache,
                  JsString.contains f "sentences" = false ->
                  JsMap.get (Path.basename f) textCache = None ->
                  gettext w f = Normal t ->
                  JsMap.size textCache <= 1 ->
                  text (describe w (config this) (root this) f) textCache
                  = (Normal t, [(Path.basename f, t)]))).
Proof.
  intros w o Zero. split.
  - intros o' this'. apply Corpora_accepts_any_capacity.
  - intros this C.
    assert (Cap : maxCacheSize (config this) = 0).
    { destruct (Corpora_normal _ _ _ C) as (-> & _).
      unfold make_config, spread. cbn. now rewrite Zero. }
    split; [exact Cap|]. split.
    + intros calls.
      pose proof (after_calls_bound w o this calls C) as B.
      rewrite Cap in B. exact B.
    + intros f t textCache sf Miss Read B.
      rewrite describe_text_file by assumption. cbn [text text_file].
      rewrite (getCachedText_miss _ _ _ t) by assumption.
      now rewrite after_miss_capacity_zero.
Qed.

Lemma capacity_zero_keeps_last_witness :
  let this := constructed abc_host (capacity 0) in
  maxCacheSize (config this) = 0
  /\ JsMap.size
       (after_calls this [CallText 0%nat; CallText 1%nat] JsMap.empty) <= 1
  /\ text (describe abc_host (config this) (root this) "/corpus/b.txt")
       [("a.txt", [65])]
     = (Normal [66], [("b.txt", [66])]).
Proof.
  intros this.
  destruct (capacity_zero_keeps_last abc_host (capacity 0) eq_refl)
    as [_ Zero].
  destruct (Zero this eq_refl) as (Cap & Bound & Last).
  split; [exact Cap|]. split; [apply Bound|].
  apply Last; solve [reflexivity | cbn; lia].
Defined.

(** C6 as stated fails: under capacity 0 the first load is retained. *)
Lemma capacity_zero_retains :
  let this := constructed abc_host (capacity 0) in
  Corpora abc_host (capacity 0) = Normal this
  /\ maxCacheSize (config this) = 0
  /\ JsMap.size (after_calls this [CallText 0%nat] JsMap.empty) = 1
  /\ JsMap.size (after_calls this [CallText 0%nat] JsMap.empty) <> 0.
Proof.
  cbv zeta. repeat split; try reflexivity. vm_compute. discriminate.
Qed.

(** ** Cache keys *)




(** ** Failures at the public interface *)


Lemma gettext_throws w filename e :
  gettext w filename = Throw e ->
  e = Error ("Failed to read text file: " ++ Path.basename filename)%string.
Proof.
  unfold gettext. destruct (readFileSync w filename) as [bytes|]; cbn.
  - destruct (debreak w _); cbn; congruence.
  - congruence.
Qed.





(** ** Strings *)

Module JsStringFacts.

Lemma append_assoc (a b c : string) :
  ((a ++ b) ++ c = a ++ (b ++ c))%string.
Proof. induction a as [|x a IH]; cbn; [reflexivity | now rewrite IH]. Qed.

Lemma startsWith_spec (s p : string) :
  JsString.startsWith s p = true <-> exists post, s = (p ++ post)%string.
Proof.
  unfold JsString.startsWith. revert s.
  induction p as [|x p IH]; intros s; destruct s as [|y s]; cbn.
  - split; [|reflexivity]. intros _. now exists ""%string.
  - split; [|reflexivity]. intros _. now exists (String y s).
  - split; [discriminate|]. intros [post H]. discriminate.
  - destruct (Ascii.ascii_dec x y) as [->|N].
    + rewrite IH. split; intros [post H]; exists post; congruence.
    + split; [discriminate|]. intros [post H]. congruence.
Qed.

Lemma startsWith_append (p post : string) :
  JsString.startsWith (p ++ post) p = true.
Proof. apply startsWith_spec. now exists post. Qed.

Lemma startsWith_trans (s p q : string) :
  JsString.startsWith s p = true ->
  JsString.startsWith p q = true ->
  JsString.startsWith s q = true.
Proof.
  rewrite !startsWith_spec. intros [a ->] [b ->].
  exists (b ++ a)%string. apply append_assoc.
Qed.

Lemma indexOf_from_range (i : Z) (pat s : string) :
  JsString.indexOf_from i pat s = -1 \/ i <= JsString.indexOf_from i pat s.
Proof.
  revert i. induction s as [|c s IH]; intros i; cbn [JsString.indexOf_from].
  - destruct (JsString.startsWith "" pat); [right; lia | now left].
  - destruct (JsString.startsWith (String c s) pat); [right; lia|].
    destruct (IH (i + 1)) as [H|H]; [now left | right; lia].
Qed.

Lemma indexOf_from_found (i : Z) (pat s : string) :
  0 <= i ->
  (-1 <? JsString.indexOf_from i pat s) = true <->
  exists pre post, s = (pre ++ pat ++ post)%string.
Proof.
  revert i. induction s as [|c s IH]; intros i Hi.
  - cbn [JsString.indexOf_from].
    destruct (JsString.startsWith "" pat) eqn:P.
    + split.
      * intros _. apply startsWith_spec in P. destruct P as [post P].
        exists ""%string, post. exact P.
      * intros _. apply Z.ltb_lt. lia.
    + split; [discriminate|]. intros (pre & post & H).
      destruct pre; [|discriminate]. cbn in H.
      assert (T : JsString.startsWith "" pat = true)
        by (apply startsWith_spec; now exists post).
      congruence.
  - cbn [JsString.indexOf_from].
    destruct (JsString.startsWith (String c s) pat) eqn:P.
    + split.
      * intros _. apply startsWith_spec in P. destruct P as [post P].
        exists ""%string, post. exact P.
      * intros _. apply Z.ltb_lt. lia.
    + rewrite (IH (i + 1)) by lia. split.
      * intros (pre & post & ->). now exists (String c pre), post.
      * intros (pre & post & H). destruct pre as [|x pre].
        -- cbn in H.
           assert (T : JsString.startsWith (String c s) pat = true)
             by (apply startsWith_spec; now exists post).
           congruence.
        -- cbn in H. injection H as _ ->. now exists pre, post.
Qed.

(** [s.indexOf(pat) > -1] says that [pat] occurs somewhere in [s]. *)
Lemma contains_spec (s pat : string) :
  JsString.contains s pat = true <->
  exists pre post, s = (pre ++ pat ++ post)%string.
Proof. unfold JsString.contains, JsString.indexOf. now apply indexOf_from_found. Qed.

Lemma contains_startsWith (s p pat : string) :
  JsString.startsWith s p = true ->
  JsString.contains p pat = true ->
  JsString.contains s pat = true.
Proof.
  rewrite startsWith_spec, !contains_spec.
  intros [rest ->] (pre & post & ->).
  exists pre, (post ++ rest)%string. now rewrite !append_assoc.
Qed.

Lemma last_append_char (s : string) (c : ascii) :
  JsString.last (s ++ String c "") = Some c.
Proof.
  induction s as [|x s IH]; cbn; [reflexivity|].
  rewrite IH. now destruct (s ++ String c "")%string eqn:E;
    [destruct s; discriminate|].
Qed.

End JsStringFacts.

(** ** The directory walker *)

Lemma with_slash_startsWith dir :
  JsString.startsWith (with_slash dir) dir = true.
Proof.
  unfold with_slash. apply JsStringFacts.startsWith_spec.
  destruct (JsString.last dir) as [c|].
  - destruct (Ascii.eqb c JsString.slash).
    + exists ""%string. clear. induction dir as [|x d IH]; cbn; congruence.
    + now exists "/"%string.
  - now exists "/"%string.
Qed.

Lemma with_slash_slashed dir : with_slash (dir ++ "/") = (dir ++ "/")%string.
Proof.
  unfold with_slash. now rewrite JsStringFacts.last_append_char.
Qed.

(** The loop inside [walkSync] is [forEach]. *)
Lemma walkSync_directory lambda files dir filelist :
  walkSync lambda (Directory files) dir filelist
  = if JsString.indexOf (with_slash dir) "###" =? -1
    then forEach lambda (with_slash dir) files (Some (or_empty filelist))
    else Some (or_empty filelist).
Proof.
  cbn [walkSync].
  destruct (JsString.indexOf (with_slash dir) "###" =? -1); [|reflexivity].
  unfold forEach. generalize (Some (or_empty filelist)).
  induction files as [|[file child] rest IH]; intros acc; [reflexivity|].
  cbn [fold_left]. rewrite <- IH. destruct child; reflexivity.
Qed.

(** When the directory at [dir] cannot be listed, [walkSync] returns the
    list it was given: [undefined] when called with [dir] alone. *)
Lemma walkSync_unlisted lambda node dir filelist :
  (forall files, node <> Directory files) ->
  walkSync lambda node dir filelist = filelist.
Proof. intros H. destruct node; try reflexivity. now destruct (H entries). Qed.

(** Induction on directory trees. *)
Fixpoint fsnode_tree_ind (P : fsnode -> Prop)
  (absent : P Absent) (file : P RegularFile) (locked : P UnreadableDir)
  (dir : forall files,
      Forall (fun entry => P (snd entry)) files -> P (Directory files))
  (node : fsnode) {struct node} : P node :=
  match node with
  | Absent => absent
  | RegularFile => file
  | UnreadableDir => locked
  | Directory files =>
      dir files
        ((fix all (l : list (string * fsnode))
            : Forall (fun entry => P (snd entry)) l :=
            match l with
            | [] => Forall_nil _
            | (n, c) :: l' =>
                Forall_cons (n, c)
                  (fsnode_tree_ind P absent file locked dir c) (all l')
            end) files)
  end.

(** Called with a list, [walkSync] returns a list: the one it was given,
    followed by paths below [dir]. *)
Lemma walkSync_extends lambda node :
  forall dir acc,
  exists found,
    walkSync lambda node dir (Some acc) = Some (acc ++ found)
    /\ Forall (fun p => JsString.startsWith p dir = true) found.
Proof.
  induction node as [| | |files IH] using fsnode_tree_ind; intros dir acc;
    try (exists []; split; [now rewrite app_nil_r | constructor]).
  rewrite walkSync_directory. cbn [or_empty].
  destruct (JsString.indexOf (with_slash dir) "###" =? -1);
    [|exists []; split; [now rewrite app_nil_r | constructor]].
  assert (E : exists found,
             forEach lambda (with_slash dir) files (Some acc)
             = Some (acc ++ found)
             /\ Forall (fun p => JsString.startsWith p (with_slash dir) = true)
                  found).
  { unfold forEach. revert acc.
    induction IH as [|[file child] rest Hc _ IHrest]; intros acc.
    - exists []. split; [now rewrite app_nil_r | constructor].
    - cbn [fold_left]. cbn [snd] in Hc.
      assert (V : exists one,
                 visit lambda (with_slash dir) (file, child) (Some acc)
                 = Some (acc ++ one)
                 /\ Forall (fun p => JsString.startsWith p (with_slash dir)
                                     = true) one).
      { unfold visit. cbn [fst snd].
        assert (Sub : forall q,
                   JsString.startsWith q ((with_slash dir ++ file) ++ "/")
                   = true ->
                   JsString.startsWith q (with_slash dir) = true).
        { intros q Hq. eapply JsStringFacts.startsWith_trans; [exact Hq|].
          rewrite JsStringFacts.append_assoc.
          apply JsStringFacts.startsWith_append. }
        destruct child as [| | |sub].
        - exists []. split; [now rewrite app_nil_r | constructor].
        - destruct (lambda && is_archive file).
          + exists []. split; [now rewrite app_nil_r | constructor].
          + exists [(with_slash dir ++ file)%string]. split; [reflexivity|].
            constructor; [|constructor].
            apply JsStringFacts.startsWith_append.
        - destruct (Hc ((with_slash dir ++ file) ++ "/")%string acc)
            as (one & -> & F).
          exists one. split; [reflexivity|].
          eapply Forall_impl; [|exact F]. exact Sub.
        - destruct (Hc ((with_slash dir ++ file) ++ "/")%string acc)
            as (one & -> & F).
          exists one. split; [reflexivity|].
          eapply Forall_impl; [|exact F]. exact Sub. }
      destruct V as (one & -> & F1).
      destruct (IHrest (acc ++ one)) as (more & -> & F2).
      exists (one ++ more). split; [now rewrite app_assoc|].
      apply Forall_app. now split. }
  destruct E as (found & -> & F). exists found. split; [reflexivity|].
  eapply Forall_impl; [|exact F]. intros p Hp.
  eapply JsStringFacts.startsWith_trans; [exact Hp|].
  apply with_slash_startsWith.
Qed.

(** A directory at the root is listed, whatever lies below it. *)
Lemma walkSync_root_listed lambda files dir :
  exists books, walkSync lambda (Directory files) dir None = Some books.
Proof.
  destruct (walkSync_extends lambda (Directory files) dir []) as (found & H & _).
  exists found. rewrite walkSync_directory in *. exact H.
Qed.

Lemma Corpora_unlisted_root w o :
  let cfg := make_config w o in
  (forall files, node_at w (getCorpusPath w cfg) <> Directory files) ->
  Corpora w o
  = Throw (TypeError "Cannot read properties of undefined (reading 'length')").
Proof.
  intros cfg H. unfold Corpora. fold cfg.
  now rewrite (walkSync_unlisted _ _ _ None H).
Qed.

Lemma Corpora_listed_root w o files :
  node_at w (getCorpusPath w (make_config w o)) = Directory files ->
  exists this, Corpora w o = Normal this.
Proof.
  intros H. unfold Corpora. rewrite H.
  destruct (walkSync_root_listed (isLambda (make_config w o)) files
              (getCorpusPath w (make_config w o))) as [books ->].
  eauto.
Qed.

(** C3: the constructor does not tolerate a missing root.  [walkSync]
    catches the failure of [readdirSync] but returns the list it was given,
    which for the root is [undefined], and reading [books.length] throws;
    a directory that cannot be listed below the root is skipped as
    intended. *)
Theorem missing_root_throws :
  node_at rootless_host (getCorpusPath rootless_host
                           (make_config rootless_host no_options)) = Absent
  /\ walkSync false Absent "/corpus" None = None
  /\ Corpora rootless_host no_options
     = Throw (TypeError "Cannot read properties of undefined (reading 'length')")
  /\ Corpora (local_host (Directory [("locked", UnreadableDir)]) []) no_options
     = Normal {| texts := [];
                 config := {| maxCacheSize := 10; isLambda := false |};
                 root := "/corpus" |}.
Proof. repeat split. Qed.

(** ** The byte order mark *)








(** ** Sentence files *)

(** C9: whether a file becomes a sentence module or a text is decided by
    [filename.indexOf('sentences') > -1] alone, that is by whether the full
    path contains "sentences" anywhere.  Every path that starts with a
    directory path containing "sentences" is a sentence module whatever its
    extension, and its accessors go through [require] and leave the cache
    alone; every other path goes through the cached text loader.  The
    walker records the files below a directory under paths that start with
    that directory's path, and the constructor describes every path the
    walker found. *)
Theorem sentence_files_by_path :
  forall (w : host) (cfg : Config) (base f : string),
    (describe w cfg base f
     = if JsString.contains f "sentences"
       then sentence_file w base f
       else text_file w cfg base f)
    /\ (JsString.contains f "sentences" = true <->
        exists pre post, f = (pre ++ "sentences" ++ post)%string)
    /\ (forall dir,
           JsString.startsWith f dir = true ->
           JsString.contains dir "sentences" = true ->
           describe w cfg base f = sentence_file w base f)
    /\ (JsString.contains f "sentences" = false ->
        text (describe w cfg base f) = getCachedText w cfg f)
    /\ (forall textCache,
           text (sentence_file w base f) textCache
           = (Normal match require w f with
                     | Some lines => join_lines lines
                     | None => []
                     end, textCache)
           /\ sentences (sentence_file w base f) textCache
              = (Normal match require w f with
                        | Some lines => lines
                        | None => []
                        end, textCache))
    /\ (forall lambda node acc books,
           walkSync lambda node f (Some acc) = Some books ->
           forall p, In p books ->
                     In p acc \/ JsString.startsWith p f = true)
    /\ (forall o this,
           Corpora w o = Normal this ->
           exists books,
             walkSync (isLambda (config this)) (node_at w (root this))
               (root this) None = Some books
             /\ texts this
                = List.map (describe w (config this) (root this)) books).
Proof.
  intros w cfg base f.
  split; [apply describe_by_path|].
  split; [apply JsStringFacts.contains_spec|].
  split; [|split; [|split; [|split]]].
  - intros dir P C. apply describe_sentence_file.
    eapply JsStringFacts.contains_startsWith; eassumption.
  - intros T. now rewrite describe_text_file.
  - intros textCache. cbn [text sentences sentence_file]. unfold lift.
    now destruct (require w f).
  - intros lambda node acc books W p I.
    destruct (walkSync_extends lambda node f acc) as (found & E & F).
    rewrite E in W. injection W as <-.
    apply in_app_or in I. destruct I as [I|I]; [now left|right].
    rewrite Forall_forall in F. now apply F.
  - intros o this C. now destruct (Corpora_normal _ _ _ C) as (_ & _ & B).
Qed.

Lemma sentence_files_by_path_witness :
  let this := constructed sentences_host no_options in
  let cfg := config this in
  describe sentences_host cfg "/corpus" "/corpus/sentences/notes.txt"
  = sentence_file sentences_host "/corpus" "/corpus/sentences/notes.txt"
  /\ text (describe sentences_host cfg "/corpus" "/corpus/book.txt")
     = getCachedText sentences_host cfg "/corpus/book.txt"
  /\ texts this
     = [sentence_file sentences_host "/corpus" "/corpus/sentences/s.js";
        sentence_file sentences_host "/corpus" "/corpus/sentences/notes.txt";
        text_file sentences_host cfg "/corpus" "/corpus/book.txt"].
Proof.
  intros this cfg.
  destruct (sentence_files_by_path sentences_host cfg "/corpus"
              "/corpus/sentences/notes.txt") as (_ & _ & Under & _).
  destruct (sentence_files_by_path sentences_host cfg "/corpus"
              "/corpus/book.txt") as (_ & _ & _ & Text & _ & _ & Built).
  split; [apply (Under "/corpus/sentences/"); reflexivity|].
  split; [apply Text; reflexivity|].
  destruct (Built no_options this eq_refl) as (books & W & T).
  rewrite T. injection W as <-. reflexivity.
Defined.

(** ** The name filter *)

Section Filter.
Variable E : RegExpEngine.
Variable docs : list descriptor.

Lemma filter_valid pattern r :
  RegExp_i E pattern = Some r ->
  filter E docs pattern = Normal (List.filter (name_matches E r) docs).
Proof.
  intros H. unfold filter. rewrite H. cbn [try_catch]. f_equal.
  apply filter_ext. intros m. unfold name_matches.
  now destruct (matches E (name m) r).
Qed.

Lemma filter_invalid pattern :
  RegExp_i E pattern = None -> filter E docs pattern = Normal [].
Proof. intros H. unfold filter. now rewrite H. Qed.

Lemma filter_returns pattern :
  exists result, filter E docs pattern = Normal result.
Proof.
  destruct (RegExp_i E pattern) as [r|] eqn:H.
  - rewrite (filter_valid _ r H). eauto.
  - rewrite (filter_invalid _ H). eauto.
Qed.

Lemma filter_literal pattern :
  conforms E ->
  literal_pattern pattern = true ->
  Forall (fun d => ascii_only (name d) = true) docs ->
  filter E docs pattern
  = Normal (List.filter (fun d => occurs_ignoring_case (name d) pattern) docs).
Proof.
  intros C L A. destruct (literal_accepted E C pattern L) as (r & R & M).
  rewrite (filter_valid _ r R). f_equal. apply filter_ext_in.
  intros d I. unfold name_matches. rewrite Forall_forall in A.
  now rewrite M by now apply A.
Qed.

End Filter.

Lemma unterminated_not_literal p :
  unterminated_class p = true -> literal_pattern p = false.
Proof.
  unfold literal_pattern. induction p as [|c p IH]; cbn; [discriminate|].
  destruct (Ascii.eqb_spec c "["%char) as [->|N].
  - reflexivity.
  - intros H. apply andb_prop in H. destruct H as [L U].
    rewrite L. cbn. now apply IH.
Qed.

Lemma literal_engine_conforms : conforms literal_engine.
Proof.
  split.
  - intros p L. exists p. cbn. rewrite L. now split.
  - intros p U. cbn. now rewrite (unterminated_not_literal p U).
Qed.

(** C4: [filter] never throws: for every engine and every pattern it
    returns a list; when the pattern is not a valid regular expression the
    list is empty, as for "[unclosed" on every conforming engine. *)
Theorem filter_never_throws :
  forall (E : RegExpEngine) (docs : list descriptor),
    (forall pattern, exists result, filter E docs pattern = Normal result)
    /\ (forall pattern,
           RegExp_i E pattern = None -> filter E docs pattern = Normal [])
    /\ (conforms E -> filter E docs "[unclosed" = Normal []).
Proof.
  intros E docs. split; [apply filter_returns|]. split; [apply filter_invalid|].
  intros C. apply filter_invalid. now apply (unterminated_rejected E C).
Qed.

Lemma filter_never_throws_witness :
  let docs := texts (constructed abc_host no_options) in
  RegExp_i literal_engine "[unclosed" = None
  /\ filter literal_engine docs "[unclosed" = Normal [].
Proof.
  intros docs. split; [reflexivity|].
  destruct (filter_never_throws literal_engine docs) as (_ & _ & Unclosed).
  exact (Unclosed literal_engine_conforms).
Defined.

(** C5: for a valid pattern [filter] returns exactly the descriptors whose
    name the expression matches, in the order of the document list; on a
    conforming engine a pattern of literal characters selects the names in
    which it occurs, letter case ignored, so that of the documents named
    "William.Gibson.Neuromancer" and "jane.austen.pride" both "gibson" and
    "GIBSON" select exactly the first. *)
Theorem filter_by_name :
  forall (E : RegExpEngine) (docs : list descriptor),
    (forall pattern r,
        RegExp_i E pattern = Some r ->
        filter E docs pattern = Normal (List.filter (name_matches E r) docs)
        /\ (forall d, In d (List.filter (name_matches E r) docs) <->
                      In d docs /\ matches E (name d) r = Some true)
        /\ (forall before behind,
               docs = before ++ behind ->
               List.filter (name_matches E r) docs
               = List.filter (name_matches E r) before
                   ++ List.filter (name_matches E r) behind))
    /\ (conforms E ->
        forall pattern,
          literal_pattern pattern = true ->
          Forall (fun d => ascii_only (name d) = true) docs ->
          filter E docs pattern
          = Normal (List.filter
                      (fun d => occurs_ignoring_case (name d) pattern) docs))
    /\ (conforms E ->
        forall d1 d2,
          name d1 = "William.Gibson.Neuromancer" ->
          name d2 = "jane.austen.pride" ->
          filter E [d1; d2] "gibson" = Normal [d1]
          /\ filter E [d1; d2] "GIBSON" = Normal [d1]).
Proof.
  intros E docs. split; [|split].
  - intros pattern r R. split; [now apply filter_valid|]. split.
    + intros d. rewrite filter_In. unfold name_matches.
      destruct (matches E (name d) r) as [[|]|]; intuition congruence.
    + intros before behind ->. apply filter_app.
  - intros C pattern. now apply filter_literal.
  - intros C d1 d2 N1 N2.
    rewrite !(filter_literal E [d1; d2]); trivial.
    + cbn [List.filter]. rewrite N1, N2. now split.
    + repeat constructor; [now rewrite N1 | now rewrite N2].
    + repeat constructor; [now rewrite N1 | now rewrite N2].
Qed.

Lemma filter_by_name_witness :
  let d1 := {| name := "William.Gibson.Neuromancer";
               text := ret []; sentences := ret [] |} in
  let d2 := {| name := "jane.austen.pride";
               text := ret []; sentences := ret [] |} in
  filter literal_engine [d1; d2] "gibson" = Normal [d1]
  /\ filter literal_engine [d1; d2] "GIBSON" = Normal [d1]
  /\ filter literal_engine [d1; d2] "austen"
     = Normal (List.filter (name_matches literal_engine "austen") [d1; d2]).
Proof.
  intros d1 d2.
  destruct (filter_by_name literal_engine [d1; d2]) as (Valid & _ & Gibson).
  destruct (Gibson literal_engine_conforms d1 d2 eq_refl eq_refl) as [G1 G2].
  split; [exact G1|]. split; [exact G2|].
  exact (proj1 (Valid "austen" "austen" eq_refl)).
Defined.

(** * Further properties of the library *)

(** ** Suffixes *)

Module JsSuffixFacts.

Lemma length_append (a b : string) :
  String.length (a ++ b) = (String.length a + String.length b)%nat.
Proof. induction a as [|c a IH]; cbn; [reflexivity | now rewrite IH]. Qed.

Lemma substring_prefix (a b : string) :
  String.substring 0 (String.length a) (a ++ b) = a.
Proof.
  induction a as [|c a IH]; cbn.
  - now destruct b.
  - now rewrite IH.
Qed.

Lemma chop_append (pre suf : string) :
  JsString.chop (String.length suf) (pre ++ suf) = pre.
Proof.
  unfold JsString.chop. rewrite length_append.
  replace (String.length pre + String.length suf - String.length suf)%nat
    with (String.length pre) by lia.
  apply substring_prefix.
Qed.

Lemma endsWith_spec (s suf : string) :
  JsString.endsWith s suf = true <-> exists pre, s = (pre ++ suf)%string.
Proof.
  induction s as [|c s IH]; cbn [JsString.endsWith].
  - destruct (String.eqb_spec "" suf) as [<-|N].
    + split; [|reflexivity]. intros _. now exists ""%string.
    + split; [discriminate|]. intros [pre H].
      destruct pre; [now cbn in H | discriminate].
  - destruct (String.eqb_spec (String c s) suf) as [<-|N].
    + split; [|reflexivity]. intros _. now exists ""%string.
    + rewrite IH. split.
      * intros [pre ->]. now exists (String c pre).
      * intros [pre H]. destruct pre as [|x pre].
        -- now cbn in H.
        -- cbn in H. injection H as _ ->. now exists pre.
Qed.

Lemma endsWith_append (pre suf : string) :
  JsString.endsWith (pre ++ suf) suf = true.
Proof. apply endsWith_spec. now exists pre. Qed.

(** A suffix without a slash lies in the last path component. *)
Lemma suffix_below_slash (suf x file pre : string) :
  JsString.contains suf "/" = false ->
  (x ++ "/" ++ file = pre ++ suf)%string ->
  exists pre', file = (pre' ++ suf)%string.
Proof.
  intros Free. revert pre. induction x as [|a x IH]; intros pre H.
  - destruct pre as [|c pre].
    + cbn in H. subst suf.
      rewrite (proj2 (JsStringFacts.contains_spec _ _)) in Free;
        [discriminate|]. now exists ""%string, file.
    + cbn in H. injection H as _ ->. now exists pre.
  - destruct pre as [|c pre].
    + cbn in H. subst suf.
      rewrite (proj2 (JsStringFacts.contains_spec _ _)) in Free;
        [discriminate|]. now exists (String a x), file.
    + cbn in H. injection H as _ H. now apply (IH pre).
Qed.

Lemma endsWith_below_slash (suf x file : string) :
  JsString.contains suf "/" = false ->
  JsString.endsWith (x ++ "/" ++ file) suf = JsString.endsWith file suf.
Proof.
  intros Free.
  destruct (JsString.endsWith file suf) eqn:F.
  - apply endsWith_spec in F. destruct F as [pre ->].
    apply endsWith_spec. exists (x ++ "/" ++ pre)%string.
    now rewrite !JsStringFacts.append_assoc.
  - destruct (JsString.endsWith (x ++ "/" ++ file) suf) eqn:W; [|reflexivity].
    apply endsWith_spec in W. destruct W as [pre W].
    destruct (suffix_below_slash suf x file pre Free W) as [pre' ->].
    now rewrite endsWith_append in F.
Qed.

Lemma last_some (s : string) (c : ascii) :
  JsString.last s = Some c -> exists x, s = (x ++ String c "")%string.
Proof.
  induction s as [|a s IH]; cbn; [discriminate|].
  destruct s as [|b s].
  - intros [= ->]. now exists ""%string.
  - intros H. destruct (IH H) as [x ->]. now exists (String a x).
Qed.

Lemma append_empty (s : string) : (s ++ "")%string = s.
Proof. induction s as [|c s IH]; cbn; [reflexivity | now rewrite IH]. Qed.

Lemma startsWith_refl (s : string) : JsString.startsWith s s = true.
Proof.
  apply JsStringFacts.startsWith_spec. exists ""%string.
  now rewrite append_empty.
Qed.

Lemma contains_inside (a s b pat : string) :
  JsString.contains s pat = true ->
  JsString.contains (a ++ s ++ b) pat = true.
Proof.
  rewrite !JsStringFacts.contains_spec. intros (pre & post & ->).
  exists (a ++ pre)%string, (post ++ b)%string.
  now rewrite !JsStringFacts.append_assoc.
Qed.

Lemma contains_trans (a b c : string) :
  JsString.contains a b = true ->
  JsString.contains b c = true ->
  JsString.contains a c = true.
Proof.
  intros H. apply JsStringFacts.contains_spec in H.
  destruct H as (pre & post & ->). apply contains_inside.
Qed.

End JsSuffixFacts.

Lemma with_slash_ends dir : exists x, with_slash dir = (x ++ "/")%string.
Proof.
  unfold with_slash. destruct (JsString.last dir) as [c|] eqn:L.
  - destruct (Ascii.eqb_spec c JsString.slash) as [->|_].
    + apply JsSuffixFacts.last_some in L. exact L.
    + now exists dir.
  - now exists dir.
Qed.

Lemma with_slash_idem dir : with_slash (with_slash dir) = with_slash dir.
Proof.
  destruct (with_slash_ends dir) as [x ->]. apply with_slash_slashed.
Qed.

Lemma with_slash_unslashed dir :
  JsString.last dir <> Some JsString.slash ->
  with_slash dir = (dir ++ "/")%string.
Proof.
  unfold with_slash. intros N. destruct (JsString.last dir) as [c|]; trivial.
  destruct (Ascii.eqb_spec c JsString.slash) as [->|_]; [now destruct N|].
  reflexivity.
Qed.

(** Below a directory path, being an archive is a matter of the entry
    name. *)
Lemma is_archive_below x file :
  is_archive ((x ++ "/") ++ file) = is_archive file.
Proof.
  unfold is_archive. rewrite JsStringFacts.append_assoc.
  now rewrite !JsSuffixFacts.endsWith_below_slash by reflexivity.
Qed.

(** ** What the walker lists and what it passes over *)

Lemma listed_under_weaken lambda dir dir' p :
  JsString.startsWith (with_slash dir') (with_slash dir) = true ->
  listed_under lambda dir' p -> listed_under lambda dir p.
Proof.
  intros S (d & file & -> & P & Rest). exists d, file.
  split; [reflexivity|]. split; [|exact Rest].
  eapply JsStringFacts.startsWith_trans; eassumption.
Qed.

(** Called with a list, [walkSync] appends paths of the listed form. *)
Lemma walkSync_listed lambda node :
  forall dir acc,
  exists found,
    walkSync lambda node dir (Some acc) = Some (acc ++ found)
    /\ Forall (listed_under lambda dir) found.
Proof.
  induction node as [| | |files IH] using fsnode_tree_ind; intros dir acc;
    try (exists []; split; [now rewrite app_nil_r | constructor]).
  rewrite walkSync_directory. cbn [or_empty].
  destruct (JsString.indexOf (with_slash dir) "###" =? -1) eqn:Sys;
    [|exists []; split; [now rewrite app_nil_r | constructor]].
  assert (Free : JsString.contains (with_slash dir) "###" = false).
  { unfold JsString.contains. apply Z.eqb_eq in Sys. now rewrite Sys. }
  assert (E : exists found,
             forEach lambda (with_slash dir) files (Some acc)
             = Some (acc ++ found)
             /\ Forall (listed_under lambda (with_slash dir)) found).
  { unfold forEach. revert acc.
    induction IH as [|[file child] rest Hc _ IHrest]; intros acc.
    - exists []. split; [now rewrite app_nil_r | constructor].
    - cbn [fold_left]. cbn [snd] in Hc.
      assert (V : exists one,
                 visit lambda (with_slash dir) (file, child) (Some acc)
                 = Some (acc ++ one)
                 /\ Forall (listed_under lambda (with_slash dir)) one).
      { unfold visit. cbn [fst snd].
        assert (Sub : forall q,
                   listed_under lambda ((with_slash dir ++ file) ++ "/") q ->
                   listed_under lambda (with_slash dir) q).
        { intros q. apply listed_under_weaken.
          rewrite with_slash_slashed, with_slash_idem.
          rewrite JsStringFacts.append_assoc.
          apply JsStringFacts.startsWith_append. }
        destruct child as [| | |sub].
        - exists []. split; [now rewrite app_nil_r | constructor].
        - destruct (lambda && is_archive file) eqn:A.
          + exists []. split; [now rewrite app_nil_r | constructor].
          + exists [(with_slash dir ++ file)%string]. split; [reflexivity|].
            constructor; [|constructor].
            exists (with_slash dir), file. split; [reflexivity|].
            split; [rewrite with_slash_idem;
                    apply JsSuffixFacts.startsWith_refl|].
            split; [apply with_slash_ends|]. split; [exact Free|].
            intros ->. exact A.
        - destruct (Hc ((with_slash dir ++ file) ++ "/")%string acc)
            as (one & -> & F).
          exists one. split; [reflexivity|].
          eapply Forall_impl; [|exact F]. exact Sub.
        - destruct (Hc ((with_slash dir ++ file) ++ "/")%string acc)
            as (one & -> & F).
          exists one. split; [reflexivity|].
          eapply Forall_impl; [|exact F]. exact Sub. }
      destruct V as (one & -> & F1).
      destruct (IHrest (acc ++ one)) as (more & -> & F2).
      exists (one ++ more). split; [now rewrite app_assoc|].
      apply Forall_app. now split. }
  destruct E as (found & -> & F). exists found. split; [reflexivity|].
  eapply Forall_impl; [|exact F].
  intros q. apply listed_under_weaken.
  rewrite with_slash_idem. apply JsSuffixFacts.startsWith_refl.
Qed.

(** From [undefined] the walker returns a list only for a directory, and
    then the list it returns from the empty list. *)
Lemma walkSync_from_undefined lambda node dir books :
  walkSync lambda node dir None = Some books ->
  walkSync lambda node dir (Some []) = Some books.
Proof.
  destruct node as [| | |files]; try discriminate.
  now rewrite !walkSync_directory.
Qed.

Lemma walkSync_root_listed_under lambda node dir books :
  walkSync lambda node dir None = Some books ->
  Forall (listed_under lambda dir) books.
Proof.
  intros H. apply walkSync_from_undefined in H.
  destruct (walkSync_listed lambda node dir []) as (found & E & F).
  rewrite E in H. now injection H as <-.
Qed.

Lemma listed_no_archive dir p :
  listed_under true dir p -> is_archive p = false.
Proof.
  intros (d & file & -> & _ & [x ->] & _ & A).
  rewrite is_archive_below. now apply A.
Qed.

(** X1. On Lambda no archive is listed: the walker returns no path that
    ends in [.zip] or [.7z], at whatever depth the file lies, and every
    descriptor of an instance describes such a path. *)
Theorem lambda_lists_no_archives :
  (forall node dir books,
      walkSync true node dir None = Some books ->
      Forall (fun p => is_archive p = false) books)
  /\ (forall w o this,
         Corpora w o = Normal this ->
         isLambda (config this) = true ->
         exists books,
           texts this = List.map (describe w (config this) (root this)) books
           /\ Forall (fun p => JsString.endsWith p ".zip" = false
                               /\ JsString.endsWith p ".7z" = false) books).
Proof.
  split.
  - intros node dir books H.
    eapply Forall_impl; [|exact (walkSync_root_listed_under _ _ _ _ H)].
    intros p. apply listed_no_archive.
  - intros w o this C L.
    destruct (Corpora_normal _ _ _ C) as (_ & _ & books & W & T).
    exists books. split; [exact T|]. rewrite L in W.
    eapply Forall_impl; [|exact (walkSync_root_listed_under _ _ _ _ W)].
    intros p P. apply listed_no_archive in P. unfold is_archive in P.
    now apply orb_false_elim in P.
Qed.

Lemma lambda_lists_no_archives_witness :
  Forall (fun p => is_archive p = false) ["/opt/corpus/lit/a.txt"].
Proof.
  exact (proj1 lambda_lists_no_archives
           (Directory [("lit", Directory [("a.txt", RegularFile);
                                          ("old.zip", RegularFile)]);
                       ("b.7z", RegularFile)])
           "/opt/corpus/" _ eq_refl).
Defined.

Lemma forEach_app lambda dir before behind filelist :
  forEach lambda dir (before ++ behind) filelist
  = forEach lambda dir behind (forEach lambda dir before filelist).
Proof. unfold forEach. apply fold_left_app. Qed.

Lemma visit_some lambda dir entry acc :
  exists l, visit lambda dir entry (Some acc) = Some l.
Proof.
  destruct entry as [file child]. unfold visit. cbn [fst snd].
  destruct child as [| | |sub].
  - eauto.
  - destruct (lambda && is_archive file); cbn; eauto.
  - cbn. eauto.
  - destruct (walkSync_extends lambda (Directory sub)
                ((dir ++ file) ++ "/")%string acc) as (found & -> & _).
    eauto.
Qed.

Lemma forEach_some lambda dir files :
  forall acc, exists l, forEach lambda dir files (Some acc) = Some l.
Proof.
  unfold forEach. induction files as [|entry rest IH]; intros acc; cbn.
  - eauto.
  - destruct (visit_some lambda dir entry acc) as [l ->]. apply IH.
Qed.

(** Visiting an entry that is passed over changes nothing. *)
Lemma visit_skipped lambda dir file child acc :
  skipped lambda file child ->
  visit lambda dir (file, child) (Some acc) = Some acc.
Proof.
  unfold visit. cbn [fst snd].
  intros [->|[->|[(-> & -> & A)|(sub & -> & S)]]]; try reflexivity.
  - now rewrite A.
  - rewrite walkSync_directory, with_slash_slashed. cbn [or_empty].
    assert (C : JsString.contains ((dir ++ file) ++ "/") "###" = true).
    { rewrite JsStringFacts.append_assoc.
      now apply JsSuffixFacts.contains_inside. }
    unfold JsString.contains in C.
    destruct (Z.eqb_spec (JsString.indexOf ((dir ++ file) ++ "/") "###") (-1))
      as [E|_]; [|reflexivity].
    rewrite E in C. discriminate.
Qed.

(** X2. Failures and exclusions are contained: an entry that cannot be
    stat'ed, a directory that cannot be listed, a directory whose name
    contains "###" and, on Lambda, an archive are passed over, and the
    walk of the surrounding directory returns exactly what it returns
    without that entry. *)
Theorem skipped_entries_leave_scan :
  forall (lambda : bool) (dir file : string) (child : fsnode)
         (before behind : list (string * fsnode))
         (filelist : option (list string)),
    skipped lambda file child ->
    walkSync lambda (Directory (before ++ (file, child) :: behind)) dir filelist
    = walkSync lambda (Directory (before ++ behind)) dir filelist.
Proof.
  intros lambda dir file child before behind filelist S.
  rewrite !walkSync_directory.
  destruct (JsString.indexOf (with_slash dir) "###" =? -1); [|reflexivity].
  rewrite !forEach_app.
  destruct (forEach_some lambda (with_slash dir) before (or_empty filelist))
    as [l ->].
  unfold forEach. cbn [fold_left]. now rewrite visit_skipped.
Qed.

Lemma skipped_entries_leave_scan_witness :
  walkSync false
    (Directory [("a.txt", RegularFile); ("###", Directory [("x", RegularFile)]);
                ("b.txt", RegularFile)]) "/corpus" None
  = walkSync false
      (Directory [("a.txt", RegularFile); ("b.txt", RegularFile)])
      "/corpus" None
  /\ walkSync true
       (Directory [("locked", UnreadableDir); ("b.txt", RegularFile)])
       "/corpus" None
     = walkSync true (Directory [("b.txt", RegularFile)]) "/corpus" None.
Proof.
  split.
  - apply (skipped_entries_leave_scan false "/corpus" "###"
             (Directory [("x", RegularFile)]) [("a.txt", RegularFile)]
             [("b.txt", RegularFile)] None).
    right. right. right. now exists [("x", RegularFile)].
  - apply (skipped_entries_leave_scan true "/corpus" "locked" UnreadableDir
             [] [("b.txt", RegularFile)] None).
    right. now left.
Defined.

(** X3. The constructor returns an instance exactly when the root is a
    directory that can be listed; in every other case (nothing there, a
    file, an unreadable directory) it throws the TypeError. *)
Theorem Corpora_returns_iff_root_listed :
  forall (w : host) (o : options),
    ((exists this, Corpora w o = Normal this) <->
     (exists files,
         node_at w (getCorpusPath w (make_config w o)) = Directory files))
    /\ ((forall files,
            node_at w (getCorpusPath w (make_config w o)) <> Directory files) ->
        Corpora w o
        = Throw (TypeError
                   "Cannot read properties of undefined (reading 'length')")).
Proof.
  intros w o. split; [split|].
  - intros [this C].
    destruct (node_at w (getCorpusPath w (make_config w o))) as [| | |files] eqn:N;
      try (rewrite Corpora_unlisted_root in C;
           [discriminate | cbv zeta; rewrite N; discriminate]).
    now exists files.
  - intros [files N]. now apply (Corpora_listed_root w o files).
  - apply Corpora_unlisted_root.
Qed.

Lemma Corpora_returns_iff_root_listed_witness :
  (exists this, Corpora abc_host no_options = Normal this)
  /\ Corpora (local_host UnreadableDir []) no_options
     = Throw (TypeError
                "Cannot read properties of undefined (reading 'length')").
Proof.
  split.
  - apply (proj1 (Corpora_returns_iff_root_listed abc_host no_options)).
    eexists. reflexivity.
  - apply (proj2 (Corpora_returns_iff_root_listed
                    (local_host UnreadableDir []) no_options)).
    intros files. discriminate.
Defined.

(** ** Document names *)

Lemma remove_first_unfold pat s :
  JsString.remove_first pat s
  = if JsString.startsWith s pat then JsString.drop (String.length pat) s
    else match s with
         | EmptyString => EmptyString
         | String c s' => String c (JsString.remove_first pat s')
         end.
Proof. now destruct s. Qed.

Lemma drop_append a b : JsString.drop (String.length a) (a ++ b) = b.
Proof. induction a as [|c a IH]; cbn; [reflexivity | exact IH]. Qed.

(** Removing the root from a path that starts with it leaves the rest. *)
Lemma remove_first_prefix root rest :
  JsString.remove_first root (root ++ rest) = rest.
Proof.
  rewrite remove_first_unfold, JsStringFacts.startsWith_append.
  apply drop_append.
Qed.

Lemma last_append a b : b <> ""%string -> JsString.last (a ++ b) = JsString.last b.
Proof.
  intros N. induction a as [|c a IH]; cbn; [reflexivity|].
  rewrite IH. destruct (a ++ b)%string eqn:E; [|reflexivity].
  destruct a; [now cbn in E | discriminate].
Qed.

Lemma endsWith_last s suf :
  suf <> ""%string ->
  JsString.endsWith s suf = true -> JsString.last s = JsString.last suf.
Proof.
  intros N H. apply JsSuffixFacts.endsWith_spec in H. destruct H as [pre ->].
  now apply last_append.
Qed.

(** The extension is dropped from the last path component. *)
Lemma strip_extension_below_slash x file :
  strip_extension (x ++ "/" ++ file) = (x ++ "/" ++ strip_extension file)%string.
Proof.
  unfold strip_extension.
  rewrite !JsSuffixFacts.endsWith_below_slash by reflexivity.
  assert (Chop : forall suf,
             JsString.endsWith file suf = true ->
             JsString.chop (String.length suf) (x ++ "/" ++ file)
             = (x ++ "/" ++ JsString.chop (String.length suf) file)%string).
  { intros suf H. apply JsSuffixFacts.endsWith_spec in H.
    destruct H as [pre ->]. rewrite JsSuffixFacts.chop_append.
    replace (x ++ "/" ++ pre ++ suf)%string
      with ((x ++ "/" ++ pre) ++ suf)%string
      by now rewrite !JsStringFacts.append_assoc.
    apply JsSuffixFacts.chop_append. }
  destruct (JsString.endsWith file ".txt") eqn:T; [exact (Chop ".txt" T)|].
  destruct (JsString.endsWith file ".js") eqn:J; [exact (Chop ".js" J)|].
  destruct (JsString.endsWith file ".zip") eqn:Z; [exact (Chop ".zip" Z)|].
  destruct (JsString.endsWith file ".7z") eqn:S; [exact (Chop ".7z" S)|].
  reflexivity.
Qed.

Lemma cleanName_below_root base rel :
  cleanName base (base ++ "/" ++ rel) = strip_extension rel.
Proof.
  unfold cleanName. rewrite strip_extension_below_slash.
  now rewrite remove_first_prefix.
Qed.

(** X4. A document is named by its path below the root, without the
    extension: [cleanName root (root/rel)] is [rel] stripped of its
    extension, and on an instance whose root has no trailing slash every
    descriptor describes a path [root/rel] and carries that name. *)
Theorem name_is_path_below_root :
  (forall base rel : string,
      cleanName base (base ++ "/" ++ rel) = strip_extension rel)
  /\ (forall (w : host) (o : options) (this : instance),
         Corpora w o = Normal this ->
         JsString.last (root this) <> Some JsString.slash ->
         forall d, In d (texts this) ->
                   exists rel,
                     d = describe w (config this) (root this)
                           (root this ++ "/" ++ rel)
                     /\ name d = strip_extension rel).
Proof.
  split; [exact cleanName_below_root|].
  intros w o this C NoSlash d I.
  destruct (Corpora_normal _ _ _ C) as (_ & _ & books & W & T).
  rewrite T in I. apply in_map_iff in I. destruct I as (p & <- & I).
  pose proof (walkSync_root_listed_under _ _ _ _ W) as F.
  rewrite Forall_forall in F.
  destruct (F p I) as (dir & file & -> & P & _).
  rewrite (with_slash_unslashed _ NoSlash) in P.
  apply JsStringFacts.startsWith_spec in P. destruct P as [post ->].
  exists (post ++ file)%string.
  replace (((root this ++ "/") ++ post) ++ file)%string
    with (root this ++ "/" ++ post ++ file)%string
    by now rewrite !JsStringFacts.append_assoc.
  split; [reflexivity|].
  unfold describe.
  destruct (-1 <? JsString.indexOf _ "sentences"); cbn [name sentence_file text_file];
    apply cleanName_below_root.
Qed.

Lemma name_is_path_below_root_witness :
  let this := constructed twin_host no_options in
  exists rel,
    describe twin_host (config this) (root this) "/corpus/two/x.txt"
    = describe twin_host (config this) (root this) (root this ++ "/" ++ rel)
    /\ name (describe twin_host (config this) (root this) "/corpus/two/x.txt")
       = strip_extension rel.
Proof.
  intros this.
  apply (proj2 name_is_path_below_root twin_host no_options this eq_refl).
  - discriminate.
  - right. now left.
Defined.

Lemma strip_known_extension stem ext :
  In ext [".txt"; ".js"; ".zip"; ".7z"]%string ->
  strip_extension (stem ++ ext) = stem.
Proof.
  assert (No : forall ext suf,
             ext <> ""%string -> suf <> ""%string ->
             JsString.last ext <> JsString.last suf ->
             JsString.endsWith (stem ++ ext) suf = false).
  { intros ext' suf Ne Ns D.
    destruct (JsString.endsWith (stem ++ ext') suf) eqn:H; [|reflexivity].
    apply endsWith_last in H; [|exact Ns].
    rewrite last_append in H by exact Ne. now destruct D. }
  unfold strip_extension.
  intros [<-|[<-|[<-|[<-|[]]]]].
  - rewrite JsSuffixFacts.endsWith_append.
    apply (JsSuffixFacts.chop_append stem ".txt").
  - rewrite (No ".js" ".txt") by discriminate.
    rewrite JsSuffixFacts.endsWith_append.
    apply (JsSuffixFacts.chop_append stem ".js").
  - rewrite (No ".zip" ".txt"), (No ".zip" ".js") by discriminate.
    rewrite JsSuffixFacts.endsWith_append.
    apply (JsSuffixFacts.chop_append stem ".zip").
  - rewrite (No ".7z" ".txt"), (No ".7z" ".js"), (No ".7z" ".zip")
      by discriminate.
    rewrite JsSuffixFacts.endsWith_append.
    apply (JsSuffixFacts.chop_append stem ".7z").
Qed.

(** X5. Names do not tell the known extensions apart, and only the last
    extension goes: for each of [.txt], [.js], [.zip], [.7z] the name of
    [stem.ext] is the name [stem] gives with nothing stripped, so files
    that differ in that extension alone share one name, while the name of
    [a.txt.js] still ends in [.txt]. *)
Theorem names_ignore_known_extension :
  forall (base stem ext : string),
    In ext [".txt"; ".js"; ".zip"; ".7z"]%string ->
    cleanName base (stem ++ ext)
    = strip_leading_separator (JsString.remove_first base stem)
    /\ (forall ext',
           In ext' [".txt"; ".js"; ".zip"; ".7z"]%string ->
           cleanName base (stem ++ ext') = cleanName base (stem ++ ext))
    /\ strip_extension ((stem ++ ".txt") ++ ext) = (stem ++ ".txt")%string.
Proof.
  intros base stem ext I.
  assert (C : forall e, In e [".txt"; ".js"; ".zip"; ".7z"]%string ->
                        cleanName base (stem ++ e)
                        = strip_leading_separator
                            (JsString.remove_first base stem)).
  { intros e Ie. unfold cleanName. now rewrite strip_known_extension. }
  split; [now apply C|]. split.
  - intros ext' I'. now rewrite !C.
  - now apply strip_known_extension.
Qed.

Lemma names_ignore_known_extension_witness :
  cleanName "/corpus" "/corpus/lit/a.js" = "lit/a"
  /\ cleanName "/corpus" "/corpus/lit/a.zip" = cleanName "/corpus" "/corpus/lit/a.js".
Proof.
  destruct (names_ignore_known_extension "/corpus" "/corpus/lit/a" ".js")
    as (Name & Same & _).
  - right. now left.
  - split; [exact Name|]. apply Same. right. right. now left.
Defined.

(** ** Configuration *)

(** X6. What the caller passes wins over defaults and environment: an
    instance uses a given [maxCacheSize] as it is, zero and negative values
    included, and 10 only when none is given; a given [isLambda] overrides
    the environment variable; and in Lambda mode the root is the layer
    path whatever [CORPUS_PATH] says, while outside it an unset or empty
    [CORPUS_PATH] leaves the local corpus directory. *)
Theorem given_options_win :
  forall (w : host) (o : options) (this : instance),
    Corpora w o = Normal this ->
    maxCacheSize (getConfig this)
    = match opt_maxCacheSize o with Some n => n | None => 10 end
    /\ isLambda (getConfig this)
       = match opt_isLambda o with
         | Some b => b
         | None => truthy (AWS_LAMBDA_FUNCTION_NAME w)
         end
    /\ (isLambda (getConfig this) = true -> root this = lambda_layer_path)
    /\ (isLambda (getConfig this) = false ->
        root this = match CORPUS_PATH w with
                    | Some p => if String.eqb p "" then local_corpus w else p
                    | None => local_corpus w
                    end).
Proof.
  intros w o this C. destruct (Corpora_normal _ _ _ C) as (Cfg & Root & _).
  unfold getConfig. rewrite Root, Cfg.
  unfold make_config, spread, number_or, getCorpusPath. cbn.
  split; [now destruct (opt_maxCacheSize o)|]. split; [reflexivity|].
  split; intros ->; [reflexivity|].
  unfold truthy. destruct (CORPUS_PATH w) as [p|]; [|reflexivity].
  now destruct (String.eqb p "").
Qed.

Lemma given_options_win_witness :
  maxCacheSize (getConfig (constructed abc_host (capacity 0))) = 0
  /\ root (constructed abc_host (capacity 0)) = "/corpus".
Proof.
  destruct (given_options_win abc_host (capacity 0)
              (constructed abc_host (capacity 0)) eq_refl)
    as (Size & _ & _ & Root).
  split; [exact Size | exact (Root eq_refl)].
Defined.

(** ** More on the cache *)

Lemma get_app_left {V} (k : string) (m l : JsMap.t V) (v : V) :
  JsMap.get k m = Some v -> JsMap.get k (m ++ l) = Some v.
Proof.
  induction m as [|[k' v'] m IH]; cbn; [discriminate|].
  now destruct (String.eqb k' k).
Qed.

Lemma get_set_other {V} (k key : string) (t v : V) (m : JsMap.t V) :
  JsMap.get k m = Some v -> JsMap.get key m = None ->
  JsMap.get k (JsMap.set key t m) = Some v.
Proof.
  intros G Miss. rewrite (JsMapFacts.set_absent _ _ _ Miss).
  now apply get_app_left.
Qed.

Lemma get_set_inv {V} (k key : string) (t : V) (m : JsMap.t V) :
  JsMap.get k (JsMap.set key t m) <> None ->
  k = key \/ JsMap.get k m <> None.
Proof.
  induction m as [|[k' v'] m IH]; cbn.
  - destruct (String.eqb_spec key k); [now left | tauto].
  - destruct (String.eqb_spec k' key) as [->|N]; cbn.
    + destruct (String.eqb_spec key k); [now left | now right].
    + destruct (String.eqb_spec k' k); [right; discriminate | exact IH].
Qed.

(** A successful load leaves the text under the base name. *)
Lemma loaded_is_cached w cfg f textCache t textCache' :
  getCachedText w cfg f textCache = (Normal t, textCache') ->
  JsMap.get (Path.basename f) textCache' = Some t.
Proof.
  intros H.
  destruct (getCachedText_cases w cfg f textCache)
    as [(t' & Hit & E)|[(e & _ & _ & E)|(t' & Miss & _ & E)]];
    rewrite E in H; inversion H; subst.
  - exact Hit.
  - unfold after_miss. apply JsMapFacts.get_set_same.
Qed.

(** X7. A load that fails changes nothing: when [text()] throws, the
    descriptor is that of a text file whose base name is not cached, the
    loader itself threw, the error is the one naming the base name, and
    the cache is exactly as it was. *)
Theorem failed_load_changes_nothing :
  forall (w : host) (cfg : Config) (base f : string)
         (textCache textCache' : cache) (e : exn),
    text (describe w cfg base f) textCache = (Throw e, textCache') ->
    textCache' = textCache
    /\ e = Error ("Failed to read text file: " ++ Path.basename f)%string
    /\ gettext w f = Throw e
    /\ JsString.contains f "sentences" = false
    /\ JsMap.get (Path.basename f) textCache = None.
Proof.
  intros w cfg base f textCache textCache' e. rewrite describe_by_path.
  destruct (JsString.contains f "sentences").
  - cbn [text sentence_file]. unfold lift, try_catch.
    destruct (or_throw (require w f)); discriminate.
  - cbn [text text_file]. intros H.
    destruct (getCachedText_cases w cfg f textCache)
      as [(t' & _ & E)|[(e' & Miss & G & E)|(t' & _ & _ & E)]];
      rewrite E in H; inversion H; subst.
    repeat split; trivial. now apply (gettext_throws w f).
Qed.

Lemma failed_load_changes_nothing_witness :
  let d := describe twin_host {| maxCacheSize := 10; isLambda := false |}
             "/corpus" "/corpus/two/x.txt" in
  snd (text d [("a.txt", [65])]) = [("a.txt", [65])]
  /\ gettext twin_host "/corpus/two/x.txt"
     = Throw (Error "Failed to read text file: x.txt").
Proof.
  intros d.
  destruct (failed_load_changes_nothing twin_host
              {| maxCacheSize := 10; isLambda := false |} "/corpus"
              "/corpus/two/x.txt" [("a.txt", [65])] [("a.txt", [65])]
              (Error "Failed to read text file: x.txt") eq_refl)
    as (_ & _ & G & _).
  split; [reflexivity | exact G].
Defined.

(** X8. A load evicts nothing but the oldest entry: after a successful
    [text()] every entry that was cached, other than the first key of the
    map, is still there with its text; when the cache was below capacity
    all of them are; and no key appears other than the base name of the
    file. *)
Theorem load_evicts_oldest_only :
  forall (w : host) (cfg : Config) (base f : string)
         (textCache textCache' : cache) (t : jsstring),
    text (describe w cfg base f) textCache = (Normal t, textCache') ->
    (forall k v,
        JsMap.get k textCache = Some v ->
        JsMap.first_key textCache <> Some k ->
        JsMap.get k textCache' = Some v)
    /\ (JsMap.size textCache < maxCacheSize cfg ->
        forall k v,
          JsMap.get k textCache = Some v -> JsMap.get k textCache' = Some v)
    /\ (forall k,
           JsMap.get k textCache' <> None ->
           k = Path.basename f \/ JsMap.get k textCache <> None).
Proof.
  intros w cfg base f textCache textCache' t. rewrite describe_by_path.
  destruct (JsString.contains f "sentences").
  - intros H. pose proof (sentence_file_text_cache w base f textCache) as S.
    rewrite H in S. cbn [snd] in S. subst. repeat split; auto.
  - cbn [text text_file]. intros H.
    destruct (getCachedText_cases w cfg f textCache)
      as [(t' & _ & E)|[(e' & _ & _ & E)|(t' & Miss & _ & E)]];
      rewrite E in H; inversion H; subst; [repeat split; auto|].
    unfold after_miss.
    destruct (JsMap.size textCache >=? maxCacheSize cfg) eqn:Full.
    + destruct textCache as [|[k0 v0] m].
      * repeat split; try discriminate.
        intros k N. left. cbn in N.
        destruct (String.eqb_spec (Path.basename f) k); congruence.
      * rewrite JsMapFacts.delete_first.
        pose proof (JsMapFacts.get_tail _ _ _ _ Miss) as MissTail.
        split; [|split].
        -- intros k v G NotFirst. apply get_set_other; [|exact MissTail].
           cbn in G, NotFirst.
           destruct (String.eqb_spec k0 k); [congruence | exact G].
        -- intros Room. rewrite Z.geb_leb in Full. apply Z.leb_le in Full. lia.
        -- intros k N. apply get_set_inv in N. destruct N as [->|N];
             [now left|right].
           cbn. destruct (String.eqb k0 k); [discriminate | exact N].
    + split; [|split].
      * intros k v G _. now apply get_set_other.
      * intros _ k v G. now apply get_set_other.
      * intros k N. apply get_set_inv in N. tauto.
Qed.

Lemma load_evicts_oldest_only_witness :
  let book f :=
    text (describe abc_host {| maxCacheSize := 2; isLambda := false |}
            "/corpus" f) in
  JsMap.get "b.txt"
    (snd (book "/corpus/c.txt" [("a.txt", [65]); ("b.txt", [66])]))
  = Some [66].
Proof.
  intros book.
  destruct (load_evicts_oldest_only abc_host
              {| maxCacheSize := 2; isLambda := false |} "/corpus"
              "/corpus/c.txt" [("a.txt", [65]); ("b.txt", [66])]
              [("b.txt", [66]); ("c.txt", [67])] [67] eq_refl)
    as (Others & _).
  apply Others; [reflexivity | discriminate].
Defined.

(** X9. Once a text is cached it is served to every text file of the same
    base name: after a successful [text()] on [f], [text()] on any text
    file [g] with [path.basename(g) = path.basename(f)], [f] itself
    included, returns the same text and leaves the cache as it is, without
    the file being read. *)
Theorem same_base_name_served_from_cache :
  forall (w : host) (cfg : Config) (base f g : string)
         (textCache textCache' : cache) (t : jsstring),
    JsString.contains f "sentences" = false ->
    JsString.contains g "sentences" = false ->
    Path.basename g = Path.basename f ->
    text (describe w cfg base f) textCache = (Normal t, textCache') ->
    text (describe w cfg base g) textCache' = (Normal t, textCache')
    /\ text (describe w cfg base f) textCache' = (Normal t, textCache').
Proof.
  intros w cfg base f g textCache textCache' t sf sg Same.
  rewrite !describe_text_file by assumption. cbn [text text_file].
  intros H. apply loaded_is_cached in H.
  split; apply getCachedText_hit; [now rewrite Same | exact H].
Qed.

Lemma same_base_name_served_from_cache_witness :
  let book f :=
    text (describe twin_host {| maxCacheSize := 10; isLambda := false |}
            "/corpus" f) in
  book "/corpus/two/x.txt" [("x.txt", [49])] = (Normal [49], [("x.txt", [49])]).
Proof.
  intros book.
  apply (same_base_name_served_from_cache twin_host
           {| maxCacheSize := 10; isLambda := false |} "/corpus"
           "/corpus/one/x.txt" "/corpus/two/x.txt" JsMap.empty
           [("x.txt", [49])] [49]); reflexivity.
Defined.

(** X10. [sentences()] of a text file is the sentence splitter applied to
    what [text()] returns, with the cache left as [text()] leaves it, and
    the empty list when the splitter throws; called after [text()] it
    works from the cached text and leaves the cache alone. *)
Theorem sentences_split_the_text :
  forall (w : host) (cfg : Config) (base f : string)
         (textCache textCache' : cache) (t : jsstring),
    JsString.contains f "sentences" = false ->
    text (describe w cfg base f) textCache = (Normal t, textCache') ->
    let lines := match sentencify w t with Some l => l | None => [] end in
    sentences (describe w cfg base f) textCache = (Normal lines, textCache')
    /\ sentences (describe w cfg base f) textCache'
       = (Normal lines, textCache').
Proof.
  intros w cfg base f textCache textCache' t sf.
  rewrite !describe_text_file by assumption. cbn [text sentences text_file].
  intros H. cbv zeta.
  assert (Again : getCachedText w cfg f textCache' = (Normal t, textCache'))
    by (apply getCachedText_hit; now apply (loaded_is_cached w cfg f textCache)).
  unfold try_catch_M, bind, lift, ret. rewrite H, Again.
  now destruct (sentencify w t).
Qed.

Lemma sentences_split_the_text_witness :
  let d := describe abc_host {| maxCacheSize := 10; isLambda := false |}
             "/corpus" "/corpus/a.txt" in
  sentences d JsMap.empty = (Normal [[65]], [("a.txt", [65])])
  /\ sentences d [("a.txt", [65])] = (Normal [[65]], [("a.txt", [65])]).
Proof.
  intros d.
  apply (sentences_split_the_text abc_host
           {| maxCacheSize := 10; isLambda := false |} "/corpus"
           "/corpus/a.txt" JsMap.empty [("a.txt", [65])] [65]); reflexivity.
Defined.

(** X11. [clearCache()] forgets everything, whatever the capacity: the
    statistics then report size 0 and no keys, and the next [text()] on a
    text file goes to the loader again, returning what it returns and
    leaving that one entry, or throwing what it throws and leaving the
    cache empty. *)
Theorem clearCache_forgets :
  forall (w : host) (this : instance) (f : string) (textCache : cache),
    JsString.contains f "sentences" = false ->
    let cleared := snd (clearCache textCache) in
    getCacheStats this cleared
    = (Normal {| cacheSize := 0;
                 stats_maxCacheSize := maxCacheSize (config this);
                 cachedTexts := [] |}, cleared)
    /\ text (describe w (config this) (root this) f) cleared
       = match gettext w f with
         | Normal t => (Normal t, [(Path.basename f, t)])
         | Throw e => (Throw e, JsMap.empty)
         end.
Proof.
  intros w this f textCache sf cleared. subst cleared. cbn [clearCache modify snd].
  split; [reflexivity|].
  rewrite describe_text_file by assumption. cbn [text text_file].
  destruct (gettext w f) as [t|e] eqn:G.
  - rewrite (getCachedText_miss _ _ _ t) by trivial.
    unfold after_miss.
    now destruct (JsMap.size JsMap.empty >=? maxCacheSize (config this)).
  - now rewrite (getCachedText_throws _ _ _ e).
Qed.

Lemma clearCache_forgets_witness :
  let this := constructed abc_host (capacity 0) in
  text (describe abc_host (config this) (root this) "/corpus/b.txt")
    (snd (clearCache [("a.txt", [65])]))
  = (Normal [66], [("b.txt", [66])]).
Proof.
  intros this.
  exact (proj2 (clearCache_forgets abc_host this "/corpus/b.txt"
                  [("a.txt", [65])] eq_refl)).
Defined.

(** ** More on the filter *)

(** X12. Whatever the engine and the pattern, valid or not, [filter]
    returns a selection from the document list: the list filtered by some
    test, hence in list order, no longer than the list, and of its
    members only. *)
Theorem filter_selects_from_texts :
  forall (E : RegExpEngine) (docs : list descriptor) (pattern : string),
  exists (keep : descriptor -> bool) (result : list descriptor),
    filter E docs pattern = Normal result
    /\ result = List.filter keep docs
    /\ (List.length result <= List.length docs)%nat
    /\ (forall d, In d result -> In d docs).
Proof.
  intros E docs pattern.
  assert (F : forall keep : descriptor -> bool,
             (List.length (List.filter keep docs) <= List.length docs)%nat
             /\ (forall d, In d (List.filter keep docs) -> In d docs)).
  { intros keep. split; [apply filter_length_le|].
    intros d I. now apply filter_In in I. }
  destruct (RegExp_i E pattern) as [r|] eqn:R.
  - exists (name_matches E r), (List.filter (name_matches E r) docs).
    rewrite (filter_valid E docs pattern r R).
    split; [reflexivity|]. split; [reflexivity|]. apply F.
  - exists (fun _ => false), [].
    rewrite (filter_invalid E docs pattern R).
    split; [reflexivity|]. split.
    + clear. induction docs as [|d docs IH]; cbn; congruence.
    + split; [cbn; lia | intros d []].
Qed.

Lemma canonical_append a b :
  canonical (a ++ b) = (canonical a ++ canonical b)%string.
Proof. induction a as [|c a IH]; cbn; [reflexivity | now rewrite IH]. Qed.

(** X13. On a conforming engine a literal pattern that contains another,
    letter case ignored, selects no more than the other does; the empty
    pattern selects every document. *)
Theorem longer_literal_selects_less :
  forall (E : RegExpEngine) (docs : list descriptor) (p q : string),
    conforms E ->
    Forall (fun d => ascii_only (name d) = true) docs ->
    literal_pattern p = true ->
    literal_pattern q = true ->
    occurs_ignoring_case p q = true ->
    exists selected_p selected_q,
      filter E docs p = Normal selected_p
      /\ filter E docs q = Normal selected_q
      /\ (forall d, In d selected_p -> In d selected_q)
      /\ filter E docs "" = Normal docs.
Proof.
  intros E docs p q C A Lp Lq Sub.
  exists (List.filter (fun d => occurs_ignoring_case (name d) p) docs),
         (List.filter (fun d => occurs_ignoring_case (name d) q) docs).
  rewrite !filter_literal by trivial.
  split; [reflexivity|]. split; [reflexivity|]. split.
  - intros d. rewrite !filter_In. intros [I H]. split; [exact I|].
    unfold occurs_ignoring_case in *.
    eapply JsSuffixFacts.contains_trans; eassumption.
  - f_equal. clear. induction docs as [|d docs IH]; [reflexivity|].
    cbn [List.filter].
    replace (occurs_ignoring_case (name d) "") with true; [now rewrite IH|].
    symmetry. unfold occurs_ignoring_case.
    apply JsStringFacts.contains_spec. now exists ""%string, (canonical (name d)).
Qed.

Lemma longer_literal_selects_less_witness :
  let d1 := {| name := "William.Gibson.Neuromancer";
               text := ret []; sentences := ret [] |} in
  let d2 := {| name := "jane.austen.pride";
               text := ret []; sentences := ret [] |} in
  filter literal_engine [d1; d2] "" = Normal [d1; d2].
Proof.
  intros d1 d2.
  assert (A : Forall (fun d => ascii_only (name d) = true) [d1; d2])
    by (repeat constructor).
  destruct (longer_literal_selects_less literal_engine [d1; d2]
              "gibson" "GIB" literal_engine_conforms A eq_refl eq_refl eq_refl)
    as (sp & sq & _ & _ & _ & All).
  exact All.
Defined.

(** * Properties of the example Lambda function *)

(** ** Escaping a text name *)

Lemma unsyntactic_not_backslash c :
  existsb (Ascii.eqb c) syntax_characters = false ->
  Ascii.eqb c JsString.backslash = false.
Proof.
  intros H. destruct (Ascii.eqb_spec c JsString.backslash) as [->|_];
    [discriminate H | reflexivity].
Qed.

Lemma unescape_escapeRegExp s : Api.unescape (Api.escapeRegExp s) = s.
Proof.
  induction s as [|c s IH]; [reflexivity|]. cbn [Api.escapeRegExp].
  destruct (existsb (Ascii.eqb c) syntax_characters) eqn:S.
  - cbn [Api.unescape]. rewrite Ascii.eqb_refl. now rewrite IH.
  - cbn [Api.unescape]. rewrite (unsyntactic_not_backslash c S).
    now rewrite IH.
Qed.

Lemma escapeRegExp_well_escaped s :
  Api.well_escaped (Api.escapeRegExp s) = true.
Proof.
  induction s as [|c s IH]; [reflexivity|]. cbn [Api.escapeRegExp].
  destruct (existsb (Ascii.eqb c) syntax_characters) eqn:S.
  - cbn [Api.well_escaped]. rewrite Ascii.eqb_refl. now rewrite S, IH.
  - cbn [Api.well_escaped]. rewrite (unsyntactic_not_backslash c S).
    now rewrite S, IH.
Qed.

Lemma escapeRegExp_length s :
  (String.length s <= String.length (Api.escapeRegExp s)
   <= 2 * String.length s)%nat.
Proof.
  induction s as [|c s IH]; cbn [Api.escapeRegExp String.length]; [lia|].
  destruct (existsb (Ascii.eqb c) syntax_characters);
    cbn [String.length]; lia.
Qed.

Lemma escapeRegExp_fixed s :
  Api.escapeRegExp s = s <->
  forallb (fun c => negb (existsb (Ascii.eqb c) syntax_characters))
    (list_ascii_of_string s) = true.
Proof.
  induction s as [|c s IH]; cbn [Api.escapeRegExp list_ascii_of_string forallb];
    [tauto|].
  destruct (existsb (Ascii.eqb c) syntax_characters) eqn:S; cbn [negb andb].
  - split; [|discriminate]. intros H. injection H as _ H.
    pose proof (escapeRegExp_length s) as L.
    apply (f_equal String.length) in H. cbn [String.length] in H. lia.
  - rewrite <- IH. split; [now intros [= ->] | now intros ->].
Qed.

(** X14. Escaping a text name loses nothing and leaves no live syntax:
    dropping the backslashes from [escapeRegExp s] gives [s] back, so
    different names give different patterns; in the result every one of
    the fourteen syntax characters follows a backslash and every backslash
    precedes one; the result is at most twice as long, and it is [s]
    itself exactly when [s] has no syntax character. *)
Theorem escapeRegExp_round_trip :
  forall s : string,
    Api.unescape (Api.escapeRegExp s) = s
    /\ Api.well_escaped (Api.escapeRegExp s) = true
    /\ (String.length s <= String.length (Api.escapeRegExp s)
        <= 2 * String.length s)%nat
    /\ (Api.escapeRegExp s = s <->
        forallb (fun c => negb (existsb (Ascii.eqb c) syntax_characters))
          (list_ascii_of_string s) = true)
    /\ (forall s', Api.escapeRegExp s' = Api.escapeRegExp s -> s' = s).
Proof.
  intros s. split; [apply unescape_escapeRegExp|].
  split; [apply escapeRegExp_well_escaped|].
  split; [apply escapeRegExp_length|].
  split; [apply escapeRegExp_fixed|].
  intros s' H. rewrite <- (unescape_escapeRegExp s'), H.
  apply unescape_escapeRegExp.
Qed.

Lemma escapeRegExp_round_trip_witness :
  Api.escapeRegExp "a.b(c)" = "a\.b\(c\)"
  /\ Api.unescape "a\.b\(c\)" = "a.b(c)"
  /\ Api.escapeRegExp "plain-name" = "plain-name".
Proof.
  destruct (escapeRegExp_round_trip "a.b(c)") as (Round & _).
  destruct (escapeRegExp_round_trip "plain-name") as (_ & _ & _ & Fixed & _).
  split; [reflexivity|]. split; [exact Round|].
  apply Fixed. reflexivity.
Defined.

(** ** Pages of the document list *)

Lemma slice_window {A} (l : list A) (k n : Z) :
  0 <= k -> 0 <= n ->
  Api.slice l k (k + n) = firstn (Z.to_nat n) (skipn (Z.to_nat k) l).
Proof.
  intros Hk Hn. unfold Api.slice.
  replace (k <? 0) with false by (symmetry; apply Z.ltb_ge; lia).
  replace (k + n <? 0) with false by (symmetry; apply Z.ltb_ge; lia).
  destruct (Z_le_gt_dec k (Z.of_nat (List.length l))) as [In|Out].
  - rewrite (Z.min_l k) by lia.
    assert (L : List.length (skipn (Z.to_nat k) l)
                = (List.length l - Z.to_nat k)%nat) by apply length_skipn.
    destruct (Z_le_gt_dec (k + n) (Z.of_nat (List.length l))) as [Fit|Over].
    + rewrite Z.min_l by lia. f_equal. lia.
    + rewrite Z.min_r by lia.
      rewrite !firstn_all2; trivial; rewrite L; lia.
  - rewrite (Z.min_r k) by lia. rewrite Z.min_r by lia.
    rewrite Z.sub_diag. cbn [Z.to_nat firstn].
    rewrite (skipn_all2 l) by lia. now rewrite firstn_nil.
Qed.

Lemma slice_length {A} (l : list A) (k n : Z) :
  0 <= k -> 0 <= n ->
  Z.of_nat (List.length (Api.slice l k (k + n)))
  = Z.min n (Z.max 0 (Z.of_nat (List.length l) - k)).
Proof.
  intros Hk Hn. rewrite slice_window by assumption.
  rewrite length_firstn, length_skipn. lia.
Qed.

(** The answer to a request for a page of the whole list. *)
Lemma page_of_whole_list E this n k :
  0 < n -> 0 <= k ->
  Api.handleTextsRequest E this Api.no_path (Api.page_query n k)
  = {| Api.statusCode := 200;
       Api.headers := Api.cors_headers;
       Api.body := Api.Page
         {| Api.page_category := "all";
            Api.total := Z.of_nat (List.length (texts this));
            Api.page_offset := k;
            Api.page_limit := n;
            Api.count :=
              Z.min n (Z.max 0 (Z.of_nat (List.length (texts this)) - k));
            Api.page_texts :=
              List.map Api.entry_of
                (firstn (Z.to_nat n) (skipn (Z.to_nat k) (texts this)));
            Api.nextOffset :=
              if k + n <? Z.of_nat (List.length (texts this))
              then Some (k + n) else None;
            Api.prevOffset :=
              if 0 <? k then Some (Z.max 0 (k - n)) else None |} |}.
Proof.
  intros Hn Hk. unfold Api.handleTextsRequest, Api.page_query, Api.no_path.
  cbn [Api.category Api.proxy Api.limit Api.offset Api.string_or truthy
       Api.try_return].
  assert (Ln : number_or (Some n) 100 = n).
  { unfold number_or. destruct (Z.eqb_spec n 0); [lia | reflexivity]. }
  assert (Lk : number_or (Some k) 0 = k).
  { unfold number_or. now destruct (Z.eqb_spec k 0). }
  rewrite Ln, Lk. unfold Api.page_of. cbn [Api.string_or_else].
  rewrite slice_length by lia. rewrite slice_window by lia. reflexivity.
Qed.

(** X15. A page is a window of the document list: for a limit [n > 0] and
    an offset [k >= 0] whose sum is a safe integer, where the arithmetic of
    JavaScript numbers is exact, the answer is 200 with the entries of the
    [n] documents after the first [k], in list order; [count] is the
    smaller of [n] and what is left after [k], so never more than the
    limit or the total; [nextOffset] is [k + n] exactly when documents
    remain beyond the page; [prevOffset] is there exactly when [k > 0] and
    lies below [k]. *)
Theorem texts_page_is_window :
  forall (E : RegExpEngine) (this : instance) (n k : Z),
    0 < n -> 0 <= k -> k + n <= Api.MAX_SAFE_INTEGER ->
    exists p,
      Api.handleTextsRequest E this Api.no_path (Api.page_query n k)
      = {| Api.statusCode := 200; Api.headers := Api.cors_headers;
           Api.body := Api.Page p |}
      /\ Api.page_texts p
         = List.map Api.entry_of
             (firstn (Z.to_nat n) (skipn (Z.to_nat k) (texts this)))
      /\ Api.count p = Z.of_nat (List.length (Api.page_texts p))
      /\ Api.count p <= n
      /\ Api.count p <= Api.total p
      /\ Api.total p = Z.of_nat (List.length (texts this))
      /\ (Api.nextOffset p = Some (k + n) <-> k + n < Api.total p)
      /\ (Api.nextOffset p = None <-> Api.total p <= k + n)
      /\ (forall prev, Api.prevOffset p = Some prev -> 0 <= prev < k)
      /\ (Api.prevOffset p = None <-> k = 0).
Proof.
  intros E this n k Hn Hk _. eexists. split; [now apply page_of_whole_list|].
  cbn [Api.page_texts Api.count Api.total Api.nextOffset Api.prevOffset].
  split; [reflexivity|].
  split; [rewrite length_map, length_firstn, length_skipn; lia|].
  split; [lia|]. split; [lia|]. split; [reflexivity|].
  split; [|split; [|split]].
  - destruct (Z.ltb_spec (k + n) (Z.of_nat (List.length (texts this))));
      split; try congruence; try lia.
  - destruct (Z.ltb_spec (k + n) (Z.of_nat (List.length (texts this))));
      split; try congruence; try lia.
  - intros prev. destruct (Z.ltb_spec 0 k); [|discriminate].
    intros [= <-]. lia.
  - destruct (Z.ltb_spec 0 k); split; try congruence; try lia.
Qed.

Lemma texts_page_is_window_witness :
  exists p,
    Api.handleTextsRequest literal_engine (constructed abc_host no_options)
      Api.no_path (Api.page_query 2 1)
    = {| Api.statusCode := 200; Api.headers := Api.cors_headers;
         Api.body := Api.Page p |}
    /\ List.map Api.entry_name (Api.page_texts p) = ["b"; "c"]
    /\ Api.nextOffset p = None.
Proof.
  destruct (texts_page_is_window literal_engine
              (constructed abc_host no_options) 2 1)
    as (p & R & T & _ & _ & _ & _ & _ & Last & _);
    [lia | lia | unfold Api.MAX_SAFE_INTEGER; lia |].
  exists p. split; [exact R|]. split; [now rewrite T|].
  apply Last. cbn in R. injection R as <-. cbn. lia.
Defined.





(** ** Requests for the list *)

(** X17. A request for the list is never answered 400: the answer is 200
    or 404, and 404 exactly when a category is given and the filter
    returns nothing, which is what happens for a category that is not a
    valid pattern, since the filter swallows the syntax error. *)
Theorem texts_request_never_rejects :
  forall (E : RegExpEngine) (this : instance)
         (pp : Api.pathParameters) (qp : Api.queryStringParameters),
    let category := Api.string_or (Api.category pp) (Api.proxy pp) in
    let answer := Api.handleTextsRequest E this pp qp in
    (Api.statusCode answer = 200 \/ Api.statusCode answer = 404)
    /\ (Api.statusCode answer = 404 <->
        truthy category = true
        /\ filter E (texts this) (Api.template_of category) = Normal [])
    /\ (truthy category = true ->
        RegExp_i E (Api.template_of category) = None ->
        answer = {| Api.statusCode := 404;
                    Api.headers := Api.cors_headers;
                    Api.body :=
                      Api.Failure "Category Not Found"
                        ("No texts found matching category: "
                         ++ Api.template_of category)%string |}).
Proof.
  intros E this pp qp category answer. subst answer.
  unfold Api.handleTextsRequest. fold category.
  destruct (truthy category) eqn:T.
  - destruct (filter_returns E (texts this) (Api.template_of category))
      as [found F].
    rewrite F. destruct found as [|d found]; cbn.
    + split; [now right|]. split; [now split|]. reflexivity.
    + split; [now left|]. split.
      * split; [discriminate|]. intros [_ H]. discriminate.
      * intros _ R. rewrite (filter_invalid E _ _ R) in F. discriminate.
  - cbn. split; [now left|]. split.
    + split; [discriminate|]. intros [H _]. discriminate.
    + discriminate.
Qed.

Lemma texts_request_never_rejects_witness :
  Api.handleTextsRequest literal_engine (constructed abc_host no_options)
    {| Api.category := Some "[unclosed"; Api.proxy := None;
       Api.path_name := None |} Api.no_query
  = {| Api.statusCode := 404;
       Api.headers := Api.cors_headers;
       Api.body :=
         Api.Failure "Category Not Found"
           "No texts found matching category: [unclosed" |}.
Proof.
  destruct (texts_request_never_rejects literal_engine
              (constructed abc_host no_options)
              {| Api.category := Some "[unclosed"; Api.proxy := None;
                 Api.path_name := None |} Api.no_query)
    as (_ & _ & Invalid).
  exact (Invalid eq_refl eq_refl).
Defined.

(** ** Requests for one text *)

Lemma described_text_throws w cfg base f c e c1 :
  text (describe w cfg base f) c = (Throw e, c1) -> c1 = c.
Proof.
  rewrite describe_by_path. destruct (JsString.contains f "sentences").
  - cbn [text sentence_file]. unfold lift. now intros [= _ <-].
  - cbn [text text_file]. intros H.
    destruct (getCachedText_cases w cfg f c)
      as [(t' & _ & E)|[(e' & _ & _ & E)|(t' & _ & _ & E)]];
      rewrite E in H; now inversion H.
Qed.

Lemma described_sentences_after_text w cfg base f c t c1 :
  text (describe w cfg base f) c = (Normal t, c1) ->
  exists lines,
    sentences (describe w cfg base f) c1 = (Normal lines, c1).
Proof.
  rewrite describe_by_path. destruct (JsString.contains f "sentences").
  - intros _. cbn [sentences sentence_file]. unfold lift, try_catch.
    destruct (or_throw (require w f)); eauto.
  - cbn [text sentences text_file]. intros H.
    assert (Again : getCachedText w cfg f c1 = (Normal t, c1))
      by (apply getCachedText_hit; now apply (loaded_is_cached w cfg f c)).
    unfold try_catch_M, bind, lift, ret. rewrite Again.
    destruct (or_throw (sentencify w t)); eauto.
Qed.

(** What is shown of a loaded text under [maxLength]. *)
Lemma shown_length (maxLength : Z) (loaded : jsstring) :
  let content :=
    if (0 <? maxLength) && (maxLength <? Z.of_nat (List.length loaded))
    then firstn (Z.to_nat maxLength) loaded ++ [46; 46; 46]
    else loaded in
  0 < maxLength -> Z.of_nat (List.length content) <= maxLength + 3.
Proof.
  cbv zeta. intros P.
  destruct (Z.ltb_spec 0 maxLength); [|lia].
  destruct (Z.ltb_spec maxLength (Z.of_nat (List.length loaded))); cbn [andb].
  - rewrite length_app, length_firstn. cbn [List.length]. lia.
  - lia.
Qed.

Section TextRequest.
Variables (w : host) (o : options) (E : RegExpEngine) (this : instance).
Variables (pp : Api.pathParameters) (qp : Api.queryStringParameters).
Variables (loadTime sentenceTime : Z).
Hypothesis built : Corpora w o = Normal this.

Let textName := Api.string_or (Api.path_name pp) (Api.proxy pp).
Let maxLength := number_or (Api.maxLength qp) 0.
Let asked := Api.handleTextRequest E this pp qp loadTime sentenceTime.

Lemma member_described d :
  In d (texts this) ->
  exists f, d = describe w (config this) (root this) f.
Proof.
  intros I. destruct (Corpora_normal _ _ _ built) as (_ & _ & books & _ & T).
  rewrite T in I. apply in_map_iff in I. destruct I as (f & <- & _).
  now exists f.
Qed.

Lemma filter_members pattern found d :
  filter E (texts this) pattern = Normal found -> In d found ->
  In d (texts this).
Proof.
  intros F I. destruct (RegExp_i E pattern) as [r|] eqn:R.
  - rewrite (filter_valid E _ _ r R) in F. injection F as <-.
    now apply filter_In in I.
  - rewrite (filter_invalid E _ _ R) in F. injection F as <-. destruct I.
Qed.

(** The ways a request for one text ends. *)
Lemma handleTextRequest_cases (c : cache) :
  (truthy textName = false
   /\ exists answer, asked c = (Normal answer, c)
                     /\ Api.statusCode answer = 400
                     /\ forall shown, Api.body answer <> Api.Content shown)
  \/ (truthy textName = true
      /\ filter E (texts this) (Api.exact_pattern (Api.template_of textName))
         = Normal []
      /\ exists answer, asked c = (Normal answer, c)
                        /\ Api.statusCode answer = 404
                        /\ forall shown, Api.body answer <> Api.Content shown)
  \/ (truthy textName = true
      /\ exists d rest,
          filter E (texts this) (Api.exact_pattern (Api.template_of textName))
          = Normal (d :: rest)
          /\ In d (texts this)
          /\ ((exists e,
                  text d c = (Throw e, c)
                  /\ asked c
                     = (Normal {| Api.statusCode := 500;
                                  Api.headers := Api.cors_headers;
                                  Api.body :=
                                    Api.FailureDetails "Processing Error"
                                      ("Failed to load text: "
                                       ++ Api.template_of textName)%string
                                      (Api.message_of e) |}, c))
              \/ (exists loaded c1 shown,
                     text d c = (Normal loaded, c1)
                     /\ asked c
                        = (Normal {| Api.statusCode := 200;
                                     Api.headers := Api.cors_headers;
                                     Api.body := Api.Content shown |}, c1)
                     /\ Api.content_name shown = name d
                     /\ Api.content shown
                        = (if (0 <? maxLength)
                              && (maxLength <? Z.of_nat (List.length loaded))
                           then firstn (Z.to_nat maxLength) loaded
                                  ++ [46; 46; 46]
                           else loaded)
                     /\ Api.content_length shown
                        = Z.of_nat (List.length (Api.content shown))))).
Proof.
  subst asked. unfold Api.handleTextRequest. fold textName. fold maxLength.
  destruct (truthy textName) eqn:T; cbn [negb].
  2:{ left. split; [reflexivity|]. eexists.
      split; [reflexivity|]. split; [reflexivity | discriminate]. }
  right.
  assert (N : Api.string_or_else textName "" = Api.template_of textName).
  { unfold truthy in T. destruct textName as [s|]; [|discriminate]. cbn.
    destruct (String.eqb s ""); [discriminate | reflexivity]. }
  rewrite N.
  destruct (filter_returns E (texts this)
              (Api.exact_pattern (Api.template_of textName))) as [found F].
  destruct found as [|d rest].
  - left. split; [reflexivity|]. split; [exact F|].
    unfold try_catch_M, bind, lift. rewrite F.
    destruct (filter_returns E (texts this) (Api.template_of textName))
      as [partial P].
    rewrite P.
    destruct partial; eexists;
      (split; [reflexivity|]; split; [reflexivity | discriminate]).
  - right. split; [reflexivity|]. exists d, rest. split; [exact F|].
    assert (I : In d (texts this))
      by (eapply filter_members; [exact F | now left]).
    split; [exact I|].
    destruct (member_described d I) as [f ->].
    unfold try_catch_M, bind, lift. rewrite F.
    destruct (text (describe w (config this) (root this) f) c)
      as [[loaded|e] c1] eqn:L.
    + right.
      destruct (described_sentences_after_text _ _ _ _ _ _ _ L)
        as [lines S].
      destruct (match Api.sentences_param qp with
                | Some s => String.eqb s "true"
                | None => false
                end).
      * rewrite S. eexists loaded, c1, _.
        split; [reflexivity|]. split; [reflexivity|]. now repeat split.
      * eexists loaded, c1, _.
        split; [reflexivity|]. split; [reflexivity|]. now repeat split.
    + left. pose proof (described_text_throws _ _ _ _ _ _ _ L) as ->.
      exists e. now split.
Qed.

End TextRequest.

(** X18. How a request for one text ends, on a constructed instance and
    for every engine: the handler always answers, with 400 exactly when no
    name is given, otherwise 404, 500 or 200; whenever the answer is not
    200 the cache is as it was before; and a 200 answer reports the length
    of the content it carries, which under a positive [maxLength] is at
    most three characters longer than [maxLength]. *)
Theorem text_request_outcomes :
  forall (w : host) (o : options) (E : RegExpEngine) (this : instance)
         (pp : Api.pathParameters) (qp : Api.queryStringParameters)
         (loadTime sentenceTime : Z) (c : cache),
    Corpora w o = Normal this ->
    exists answer c',
      Api.handleTextRequest E this pp qp loadTime sentenceTime c
      = (Normal answer, c')
      /\ In (Api.statusCode answer) [200; 400; 404; 500]
      /\ (Api.statusCode answer = 400 <->
          truthy (Api.string_or (Api.path_name pp) (Api.proxy pp)) = false)
      /\ (Api.statusCode answer <> 200 -> c' = c)
      /\ (forall shown,
             Api.body answer = Api.Content shown ->
             Api.statusCode answer = 200
             /\ Api.content_length shown
                = Z.of_nat (List.length (Api.content shown))
             /\ (0 < number_or (Api.maxLength qp) 0 ->
                 Z.of_nat (List.length (Api.content shown))
                 <= number_or (Api.maxLength qp) 0 + 3)).
Proof.
  intros w o E this pp qp lt st c C.
  destruct (handleTextRequest_cases w o E this pp qp lt st C c)
    as [(T & answer & A & S & B)
       |[(T & _ & answer & A & S & B)
        |(T & d & rest & _ & _ &
          [(e & _ & A)|(loaded & c1 & shown & _ & A & _ & Shown & Len)])]].
  - exists answer, c. rewrite S, T. split; [exact A|].
    split; [cbn; tauto|]. split; [tauto|]. split; [reflexivity|].
    intros shown H. now destruct (B shown).
  - exists answer, c. rewrite S, T. split; [exact A|].
    split; [cbn; tauto|]. split; [split; discriminate|].
    split; [reflexivity|].
    intros shown H. now destruct (B shown).
  - eexists _, c. rewrite T. split; [exact A|]. cbn [Api.statusCode Api.body].
    split; [cbn; tauto|].
    split; [split; discriminate|]. split; [reflexivity|]. discriminate.
  - eexists _, c1. rewrite T. split; [exact A|]. cbn [Api.statusCode Api.body].
    split; [cbn; tauto|].
    split; [split; discriminate|]. split; [congruence|].
    intros shown' [= <-]. split; [reflexivity|]. split; [exact Len|].
    rewrite Shown. apply shown_length.
Qed.

Lemma text_request_outcomes_witness :
  exists answer c',
    Api.handleTextRequest exact_engine (constructed abc_host no_options)
      {| Api.category := None; Api.proxy := None; Api.path_name := Some "B" |}
      Api.no_query 2 3 JsMap.empty
    = (Normal answer, c')
    /\ In (Api.statusCode answer) [200; 400; 404; 500].
Proof.
  destruct (text_request_outcomes abc_host no_options exact_engine
              (constructed abc_host no_options)
              {| Api.category := None; Api.proxy := None;
                 Api.path_name := Some "B" |}
              Api.no_query 2 3 JsMap.empty eq_refl)
    as (answer & c' & A & S & _).
  now exists answer, c'.
Defined.

Lemma filter_exact E docs s :
  Api.conforms_exact E ->
  ascii_only s = true ->
  Forall (fun d => ascii_only (name d) = true) docs ->
  filter E docs (Api.exact_pattern s)
  = Normal (List.filter
              (fun d => String.eqb (canonical (name d)) (canonical s)) docs).
Proof.
  intros C S A. destruct (C s S) as (r & R & M).
  rewrite (filter_valid E docs _ r R). f_equal. apply filter_ext_in.
  intros d I. unfold name_matches. rewrite Forall_forall in A.
  now rewrite M by now apply A.
Qed.

Lemma filter_first_hit {A} (keep : A -> bool) before d behind :
  Forall (fun b => keep b = false) before ->
  keep d = true ->
  List.filter keep (before ++ d :: behind) = d :: List.filter keep behind.
Proof.
  intros F K. induction F as [|b before Hb _ IH]; cbn.
  - now rewrite K.
  - now rewrite Hb.
Qed.

Lemma parse_exact_pattern s :
  parse_exact (Api.exact_pattern s) = Some s.
Proof.
  unfold Api.exact_pattern, parse_exact. cbn [String.append].
  assert (Chop : JsString.chop 1 (Api.escapeRegExp s ++ "$")
                 = Api.escapeRegExp s)
    by apply (JsSuffixFacts.chop_append (Api.escapeRegExp s) "$").
  rewrite JsSuffixFacts.endsWith_append, Chop.
  rewrite escapeRegExp_well_escaped, unescape_escapeRegExp. reflexivity.
Qed.

Lemma exact_engine_conforms_exact : Api.conforms_exact exact_engine.
Proof.
  intros s _. exists (ToyExact s). split; [|reflexivity].
  cbn [RegExp_i exact_engine].
  replace (literal_pattern (Api.exact_pattern s)) with false by reflexivity.
  now rewrite parse_exact_pattern.
Qed.

(** X19. The exact lookup is by name, letter case ignored, and takes the
    first namesake: on an engine that conforms for escaped patterns, a
    request for an ASCII name is answered from the first document of the
    list whose name equals the requested one up to letter case: 200 with
    that document's name and text when its [text()] returns, 500 when it
    throws; later documents of the same name are never reached. *)
Theorem exact_lookup_takes_first_namesake :
  forall (w : host) (o : options) (E : RegExpEngine) (this : instance)
         (pp : Api.pathParameters) (qp : Api.queryStringParameters)
         (loadTime sentenceTime : Z) (c : cache)
         (s : string) (before behind : list descriptor) (d : descriptor),
    Corpora w o = Normal this ->
    Api.conforms_exact E ->
    Forall (fun d => ascii_only (name d) = true) (texts this) ->
    Api.string_or (Api.path_name pp) (Api.proxy pp) = Some s ->
    s <> ""%string ->
    ascii_only s = true ->
    texts this = before ++ d :: behind ->
    Forall (fun b => canonical (name b) <> canonical s) before ->
    canonical (name d) = canonical s ->
    (forall e,
        text d c = (Throw e, c) ->
        Api.handleTextRequest E this pp qp loadTime sentenceTime c
        = (Normal {| Api.statusCode := 500;
                     Api.headers := Api.cors_headers;
                     Api.body :=
                       Api.FailureDetails "Processing Error"
                         ("Failed to load text: " ++ s)%string
                         (Api.message_of e) |}, c))
    /\ (forall loaded c1,
           text d c = (Normal loaded, c1) ->
           exists shown,
             Api.handleTextRequest E this pp qp loadTime sentenceTime c
             = (Normal {| Api.statusCode := 200;
                          Api.headers := Api.cors_headers;
                          Api.body := Api.Content shown |}, c1)
             /\ Api.content_name shown = name d
             /\ (number_or (Api.maxLength qp) 0 <= 0 ->
                 Api.content shown = loaded)).
Proof.
  intros w o E this pp qp lt st c s before behind d C X A N Ne As T B D.
  assert (Tr : truthy (Api.string_or (Api.path_name pp) (Api.proxy pp)) = true).
  { rewrite N. cbn. destruct (String.eqb_spec s ""); [contradiction | reflexivity]. }
  assert (F : filter E (texts this) (Api.exact_pattern s)
              = Normal (d :: List.filter
                               (fun d => String.eqb (canonical (name d))
                                           (canonical s)) behind)).
  { rewrite (filter_exact E _ s X As A), T. f_equal.
    apply filter_first_hit.
    - eapply Forall_impl; [|exact B]. intros b Hb. now apply String.eqb_neq.
    - now apply String.eqb_eq. }
  destruct (handleTextRequest_cases w o E this pp qp lt st C c)
    as [(Tf & _)
       |[(_ & Nil & _)
        |(_ & d' & rest & F' & _ &
          [(e' & L' & A')|(loaded' & c1' & shown & L' & A' & Nm & Shown & _)])]];
    rewrite ?N in *; cbn [Api.template_of] in *;
    try congruence;
    rewrite F in F'; injection F' as <- <-.
  - split.
    + intros e L. rewrite L in L'. injection L' as <-. exact A'.
    + intros loaded c1 L. congruence.
  - split.
    + intros e L. congruence.
    + intros loaded c1 L. rewrite L in L'. injection L' as <- <-.
      exists shown. split; [exact A'|]. split; [exact Nm|].
      intros Off. rewrite Shown.
      destruct (Z.ltb_spec 0 (number_or (Api.maxLength qp) 0)); [lia|].
      reflexivity.
Qed.

Lemma exact_lookup_takes_first_namesake_witness :
  let this := constructed twin_host no_options in
  exists shown,
    Api.handleTextRequest exact_engine this
      {| Api.category := None; Api.proxy := None;
         Api.path_name := Some "ONE/X" |}
      Api.no_query 2 3 JsMap.empty
    = (Normal {| Api.statusCode := 200;
                 Api.headers := Api.cors_headers;
                 Api.body := Api.Content shown |}, [("x.txt", [49])])
    /\ Api.content_name shown = "one/x".
Proof.
  intros this.
  assert (A : Forall (fun d => ascii_only (name d) = true) (texts this))
    by (repeat constructor).
  destruct (exact_lookup_takes_first_namesake twin_host no_options
              exact_engine this
              {| Api.category := None; Api.proxy := None;
                 Api.path_name := Some "ONE/X" |}
              Api.no_query 2 3 JsMap.empty "ONE/X" []
              [describe twin_host (config this) (root this) "/corpus/two/x.txt"]
              (describe twin_host (config this) (root this) "/corpus/one/x.txt")
              eq_refl exact_engine_conforms_exact A eq_refl)
    as (_ & Found);
    [discriminate | reflexivity | reflexivity | constructor | reflexivity |].
  destruct (Found [49] [("x.txt", [49])] eq_refl) as (shown & R & Nm & _).
  exists shown. split; [exact R | exact Nm].
Defined.

(** ** The handler and its container *)

(** X20. Without a listable corpus root the function serves nothing: the
    constructor throws on every cold start, so every request, [OPTIONS]
    and [/health] included, is answered 500 with the TypeError's message
    and the request id, and the module variable stays unset, so that the
    next invocation starts cold again. *)
Theorem cold_start_failure_answers_500 :
  forall (w : host) (E : RegExpEngine),
    (forall files,
        node_at w (getCorpusPath w (make_config w Api.handler_options))
        <> Directory files) ->
    (forall r ev ctx,
        Api.handler w E r ev ctx Api.cold
        = ({| Api.statusCode := 500;
              Api.headers := Api.error_headers;
              Api.body :=
                Api.FailureRequest "Internal Server Error"
                  "Cannot read properties of undefined (reading 'length')"
                  (Api.awsRequestId ctx) |}, Api.cold))
    /\ (forall requests, Api.serve w E requests Api.cold = Api.cold).
Proof.
  intros w E Root.
  assert (Step : forall r ev ctx,
             Api.handler w E r ev ctx Api.cold
             = ({| Api.statusCode := 500;
                   Api.headers := Api.error_headers;
                   Api.body :=
                     Api.FailureRequest "Internal Server Error"
                       "Cannot read properties of undefined (reading 'length')"
                       (Api.awsRequestId ctx) |}, Api.cold)).
  { intros r ev ctx. unfold Api.handler. cbn [Api.corpus Api.cold].
    now rewrite (Corpora_unlisted_root w Api.handler_options Root). }
  split; [exact Step|].
  intros requests. unfold Api.serve.
  induction requests as [|[[r ev] ctx] requests IH]; [reflexivity|].
  cbn [fold_left fst snd]. rewrite Step. exact IH.
Qed.

Lemma cold_start_failure_answers_500_witness :
  Api.handler (lambda_host Absent []) literal_engine quiet
    {| Api.httpMethod := Some "OPTIONS";
       Api.requestContext_http_method := None;
       Api.path := Some "/health"; Api.rawPath := None;
       Api.event_pathParameters := None;
       Api.event_queryStringParameters := None |}
    request_1 Api.cold
  = ({| Api.statusCode := 500;
        Api.headers := Api.error_headers;
        Api.body :=
          Api.FailureRequest "Internal Server Error"
            "Cannot read properties of undefined (reading 'length')"
            "req-1" |}, Api.cold).
Proof.
  apply (proj1 (cold_start_failure_answers_500 (lambda_host Absent [])
                  literal_engine ltac:(intros files; discriminate))).
Defined.

Lemma handler_keeps_container w E r ev ctx rt :
  container_ok w rt -> container_ok w (snd (Api.handler w E r ev ctx rt)).
Proof.
  assert (Warm : forall this c,
             Corpora w Api.handler_options = Normal this ->
             JsMap.size c <= 5 /\ NoDup (JsMap.keys c) ->
             container_ok w
               (snd (Api.handler w E r ev ctx
                       {| Api.corpus := Some this; Api.corpus_cache := c |}))).
  { intros this c C Ok.
    assert (Cap : maxCacheSize (config this) = 5).
    { destruct (Corpora_normal _ _ _ C) as (-> & _). reflexivity. }
    set (P := fun c : cache => JsMap.size c <= 5 /\ NoDup (JsMap.keys c)).
    assert (Miss : forall key text c0,
               JsMap.get key c0 = None -> P c0 ->
               P (after_miss (config this) key text c0)).
    { intros key text c0 G [B N]. split.
      - pose proof (after_miss_bound (config this) key text c0 G) as H.
        rewrite Cap in H. apply H. lia.
      - now apply after_miss_nodup. }
    assert (Pc : P c) by exact Ok.
    unfold Api.handler. cbn [Api.corpus Api.corpus_cache].
    set (routed := if String.eqb _ "OPTIONS" then _ else _).
    assert (R : P (snd (routed c))).
    { subst routed.
      destruct (String.eqb _ "OPTIONS"); [exact Pc|].
      destruct (String.eqb _ "/health"); [exact Pc|].
      destruct (String.eqb _ "/texts" || JsString.startsWith _ "/texts/");
        [exact Pc|].
      destruct (JsString.startsWith _ "/text/"); [|exact Pc].
      match goal with
      | |- P (snd (Api.handleTextRequest E this ?pp ?qp ?lt ?st c)) =>
          destruct (handleTextRequest_cases w Api.handler_options E this
                      pp qp lt st C c)
            as [(_ & a & -> & _)
               |[(_ & _ & a & -> & _)
                |(_ & d & rest & _ & I &
                  [(e & _ & ->)|(loaded & c1 & shown & L & -> & _)])]]
      end; cbn [snd]; try exact Pc.
      destruct (member_described w Api.handler_options this C d I) as [f ->].
      pose proof (descriptor_preserves w (config this) P (root this) f c
                    Miss Pc) as [T _].
      now rewrite L in T. }
    destruct (routed c) as [[answer|error] c']; cbn [snd] in *;
      unfold container_ok; cbn [Api.corpus Api.corpus_cache];
      (split; [exact C|]; split; [exact Cap|]; exact R). }
  unfold container_ok at 1.
  destruct rt as [[this|] c]; cbn [Api.corpus Api.corpus_cache].
  - intros (C & _ & B & N). now apply Warm.
  - intros ->. unfold Api.handler at 1. cbn [Api.corpus Api.cold].
    destruct (Corpora w Api.handler_options) as [this|e] eqn:C.
    + pose proof (Warm this JsMap.empty eq_refl) as W.
      unfold Api.handler in W. cbn [Api.corpus Api.corpus_cache] in W.
      apply W. split; [cbn; lia | constructor].
    + reflexivity.
Qed.

(** X21. The container never holds more than five texts: whatever
    requests arrive in whatever order on one container, afterwards the
    module variable is either still unset, with nothing cached, or holds
    the instance constructed with capacity 5, whose cache has at most five
    entries under distinct keys. *)
Theorem container_holds_at_most_five :
  forall (w : host) (E : RegExpEngine)
         (requests : list (Api.readings * Api.event * Api.context)),
    match Api.corpus (Api.serve w E requests Api.cold) with
    | Some this =>
        Corpora w Api.handler_options = Normal this
        /\ maxCacheSize (config this) = 5
        /\ JsMap.size (Api.corpus_cache (Api.serve w E requests Api.cold)) <= 5
        /\ NoDup (JsMap.keys
                    (Api.corpus_cache (Api.serve w E requests Api.cold)))
    | None => Api.serve w E requests Api.cold = Api.cold
    end.
Proof.
  intros w E requests.
  change (container_ok w (Api.serve w E requests Api.cold)).
  assert (G : forall rt, container_ok w rt ->
                         container_ok w (Api.serve w E requests rt)).
  { unfold Api.serve.
    induction requests as [|[[r ev] ctx] requests IH]; intros rt Ok;
      cbn [fold_left fst snd]; [exact Ok|].
    apply IH. now apply handler_keeps_container. }
  apply G. reflexivity.
Qed.

Lemma container_holds_at_most_five_witness :
  JsMap.size (Api.corpus_cache (Api.serve six_host exact_engine six_requests
                                  Api.cold)) <= 5
  /\ JsMap.keys (Api.corpus_cache (Api.serve six_host exact_engine
                                     six_requests Api.cold))
     = ["b.txt"; "c.txt"; "d.txt"; "e.txt"; "f.txt"].
Proof.
  split; [|reflexivity].
  pose proof (container_holds_at_most_five six_host exact_engine six_requests)
    as H.
  destruct (Api.corpus (Api.serve six_host exact_engine six_requests Api.cold))
    as [this|] eqn:C.
  - exact (proj1 (proj2 (proj2 H))).
  - rewrite H. cbn. lia.
Defined.
